(** * MP4 Splitter: the split-point table and the segment export driver

    A shallow embedding of [mp4splitter/split_points_table.py] and
    [mp4splitter/video_splitter.py], and the properties of the split-point
    sequencing, the time text format and the export walk.

    Conventions.
    - Python [int] is [Z]; [None] is the [None] of [option].
    - Python [str] is [string]; the text functions work on the list of its
      characters.  The model of the built-ins is exact on ASCII text (a
      character is an [ascii] code below 128).
    - A [ValueError] raised by [parse_time] is the result [None].
    - The Qt signals emitted by the driver and the calls it makes into
      MoviePy are recorded, in order, in a trace of events. *)

From Stdlib Require Import ZArith Ascii String Lia Sorted.
From stdpp Require Import base option list.

Open Scope Z_scope.

(** ** Python built-ins used by the time text format *)

Module PyText.

Definition chars := list ascii.

Definition is_digit (c : ascii) : bool :=
  let n := nat_of_ascii c in ((48 <=? n) && (n <=? 57))%nat.

Definition digit_val (c : ascii) : Z := Z.of_nat (nat_of_ascii c) - 48.

Definition digit_char (d : Z) : ascii := ascii_of_nat (Z.to_nat (48 + d)).

(** [Py_ISSPACE]: tab, line feed, vertical tab, form feed, carriage
    return and space. *)
Definition is_space (c : ascii) : bool :=
  let n := nat_of_ascii c in (((9 <=? n) && (n <=? 13)) || (n =? 32))%nat.

Definition ascii_eqb (a b : ascii) : bool := Ascii.eqb a b.

(** *** [str.split(sep)] with a one-character separator

    Every occurrence of the separator cuts; empty fields are kept, so the
    result has one more field than the text has separators. *)
Fixpoint split (sep : ascii) (s : chars) : list chars :=
  match s with
  | [] => [[]]
  | c :: r =>
      if ascii_eqb c sep then [] :: split sep r
      else match split sep r with
           | [] => [[c]]
           | f :: fs => (c :: f) :: fs
           end
  end.

(** *** [int(s)] on a string, base 10

    Surrounding white space is dropped, one sign is allowed, and then come
    decimal digits, where single underscores may stand between two digits.
    Anything else is a [ValueError]. *)
Fixpoint lstrip (s : chars) : chars :=
  match s with
  | c :: r => if is_space c then lstrip r else s
  | [] => []
  end.

Definition rstrip (s : chars) : chars := rev (lstrip (rev s)).

Definition strip (s : chars) : chars := rstrip (lstrip s).

(** [prev_digit] tells whether the character before was a digit: an
    underscore is accepted only then, and the text may end only then. *)
Fixpoint scan_digits (s : chars) (acc : Z) (prev_digit : bool) : option Z :=
  match s with
  | [] => if prev_digit then Some acc else None
  | c :: r =>
      if is_digit c then scan_digits r (acc * 10 + digit_val c) true
      else if ascii_eqb c "_" then
             if prev_digit then scan_digits r acc false else None
           else None
  end.

Definition int (s : chars) : option Z :=
  match strip s with
  | c :: r =>
      if ascii_eqb c "-" then Z.opp <$> scan_digits r 0 false
      else if ascii_eqb c "+" then scan_digits r 0 false
      else scan_digits (c :: r) 0 false
  | [] => None
  end.

(** *** [str(n)] and the format specification [0<width>d] *)

(** The decimal digits of [n >= 0], most significant first.  The fuel
    bounds the number of digits. *)
Fixpoint digits_aux (fuel : nat) (n : Z) (acc : chars) : chars :=
  match fuel with
  | O => acc
  | S f =>
      let acc' := digit_char (n mod 10) :: acc in
      if n <? 10 then acc' else digits_aux f (n / 10) acc'
  end.

Definition digits (n : Z) : chars :=
  digits_aux (S (Z.to_nat (Z.log2 n))) n [].

Definition str (n : Z) : chars :=
  if n <? 0 then "-"%char :: digits (- n) else digits n.

Definition zfill (width : nat) (ds : chars) : chars :=
  replicate (width - length ds) "0"%char ++ ds.

(** [format(n, "0<width>d")]: the sign counts in the width and the zeros
    come after it. *)
Definition format_0d (width : nat) (n : Z) : chars :=
  if n <? 0 then "-"%char :: zfill (width - 1) (digits (- n))
  else zfill width (digits n).

(** *** Runs of digits *)

Definition all_digits (s : chars) : Prop := Forall (fun c => is_digit c = true) s.

(** The number a run of digits reads as, continuing from [acc]. *)
Definition value (s : chars) (acc : Z) : Z :=
  fold_left (fun a c => a * 10 + digit_val c) s acc.

(** The leading digits of a text and what follows them. *)
Fixpoint span_digits (s : chars) : chars * chars :=
  match s with
  | c :: r =>
      if is_digit c then let (ds, rest) := span_digits r in (c :: ds, rest)
      else ([], s)
  | [] => ([], [])
  end.

(** The characters an integer literal is made of. *)
Definition int_char (c : ascii) : bool :=
  is_space c || is_digit c || ascii_eqb c "_" || ascii_eqb c "+" || ascii_eqb c "-".

End PyText.

(** ** [split_points_table.py] *)

(** [class SplitPoint]: a segment of the video, times in milliseconds. *)
Record SplitPoint := mkSplitPoint {
  start_time : option Z;
  end_time : option Z;
  selected : bool
}.

(** [SplitPoint.__init__(start_time, end_time=None)] *)
Definition SplitPoint_init (start_time end_time : option Z) : SplitPoint :=
  {| start_time := start_time; end_time := end_time; selected := true |}.

Definition set_start_time (v : option Z) (p : SplitPoint) : SplitPoint :=
  {| start_time := v; end_time := end_time p; selected := selected p |}.

Definition set_end_time (v : option Z) (p : SplitPoint) : SplitPoint :=
  {| start_time := start_time p; end_time := v; selected := selected p |}.

Definition set_selected (v : bool) (p : SplitPoint) : SplitPoint :=
  {| start_time := start_time p; end_time := end_time p; selected := v |}.

(** [SplitPoint.duration] *)
Definition duration (p : SplitPoint) : Z :=
  match end_time p, start_time p with
  | Some e, Some s => e - s
  | _, _ => 0
  end.

(** [SplitPointsTable.parse_time]: [None] is the [ValueError]. *)
Definition parse_time (time_str : string) : option Z :=
  match PyText.split ":" (list_ascii_of_string time_str) with
  | [hours; minutes; rest] =>
      match PyText.split "." rest with
      | [seconds; milliseconds] =>
          h ← PyText.int hours;
          m ← PyText.int minutes;
          s ← PyText.int seconds;
          ms ← PyText.int milliseconds;
          Some ((h * 3600 + m * 60 + s) * 1000 + ms)
      | _ => None
      end
  | _ => None
  end.

(** [SplitPointsTable.format_time] *)
Definition format_time (ms : option Z) : string :=
  match ms with
  | None => "00:00:00.000"
  | Some ms =>
      let seconds := ms / 1000 in
      let minutes := seconds / 60 in
      let hours := minutes / 60 in
      string_of_list_ascii
        (PyText.format_0d 2 hours ++ ":"%char ::
         PyText.format_0d 2 (minutes mod 60) ++ ":"%char ::
         PyText.format_0d 2 (seconds mod 60) ++ "."%char ::
         PyText.format_0d 3 (ms mod 1000))
  end.

(** The canonical shape [HH:MM:SS.mmm] of the specification: two or more
    digits of hours, two of minutes, two of seconds, three of milliseconds.
    This recognizer follows the words of the specification, not the code;
    [parse_time] is compared with it. *)
Definition canonical_shape (time_str : string) : bool :=
  let (hours, rest) := PyText.span_digits (list_ascii_of_string time_str) in
  (2 <=? length hours)%nat &&
  match rest with
  | [c1; m1; m2; c2; s1; s2; d; k1; k2; k3] =>
      PyText.ascii_eqb c1 ":" && PyText.is_digit m1 && PyText.is_digit m2
      && PyText.ascii_eqb c2 ":" && PyText.is_digit s1 && PyText.is_digit s2
      && PyText.ascii_eqb d "." && PyText.is_digit k1 && PyText.is_digit k2
      && PyText.is_digit k3
  | _ => false
  end.

(** The texts of the three time cells of a row of the widget (columns 1, 2
    and 3; column 0 holds the check box, which shows [selected]). *)
Record row_items := mkRow {
  start_item : string;
  end_item : string;
  duration_item : string
}.

(** [class SplitPointsTable]: the list of split points and what the
    widget displays.  Each [SplitPoint] object is created once and appended
    once, so a row number of [split_points] identifies the object. *)
Record SplitPointsTable := mkTable {
  split_points : list SplitPoint;
  rows : list row_items
}.

(** [SplitPointsTable.__init__] *)
Definition SplitPointsTable_init : SplitPointsTable :=
  {| split_points := []; rows := [] |}.

Definition row_of (point : SplitPoint) : row_items :=
  {| start_item := format_time (start_time point);
     end_item := format_time (end_time point);
     duration_item := format_time (Some (duration point)) |}.

(** [SplitPointsTable.update_table]: the display is rebuilt from the
    split points. *)
Definition update_table (split_points : list SplitPoint) : SplitPointsTable :=
  {| split_points := split_points; rows := row_of <$> split_points |}.

(** [SplitPointsTable.add_split_point].  [split_points[-2]] exists under
    the guard [len(self.split_points) > 1]. *)
Definition add_split_point (self : SplitPointsTable) (current_time : Z)
  : SplitPointsTable :=
  let start_time :=
    match last (split_points self) with
    | None => Some 0
    | Some p => end_time p
    end in
  let split_point := SplitPoint_init start_time (Some current_time) in
  let points := split_points self ++ [split_point] in
  if (1 <? length points)%nat then
    update_table (alter (set_end_time start_time) (length points - 2)%nat points)
  else update_table points.

(** [SplitPointsTable.toggle_selection]; [checked] is [state == Qt.Checked]. *)
Definition toggle_selection (self : SplitPointsTable) (row : nat) (checked : bool)
  : SplitPointsTable :=
  if (row <? length (split_points self))%nat then
    {| split_points := alter (set_selected checked) row (split_points self);
       rows := rows self |}
  else self.

(** [self.item(row, column).text()] for the time columns. *)
Definition item (self : SplitPointsTable) (row column : nat) : option string :=
  r ← rows self !! row;
  match column with
  | 1%nat => Some (start_item r)
  | 2%nat => Some (end_item r)
  | 3%nat => Some (duration_item r)
  | _ => None
  end.

(** The outcome of handling an edit, to tell the paths of [cell_edited]
    apart: ignored by the first guard, applied, the [ValueError] of
    [parse_time] caught, or no item in the cell. *)
Inductive edit_outcome := Ignored | Applied | ParseError | NoItem.

(** [SplitPointsTable.cell_edited].  The rows touched exist under the
    guards of the source.  A cell without an item would raise before any
    assignment; the table is then as it was. *)
Definition cell_edited (self : SplitPointsTable) (row column : nat)
  : SplitPointsTable * edit_outcome :=
  let points := split_points self in
  if (length points <=? row)%nat || negb ((column =? 1)%nat || (column =? 2)%nat)
  then (self, Ignored)
  else
    match item self row column with
    | None => (self, NoItem)
    | Some time_str =>
        match parse_time time_str with
        | Some time_ms =>
            if (column =? 1)%nat then
              let points1 := alter (set_start_time (Some time_ms)) row points in
              let points2 :=
                if (0 <? row)%nat
                then alter (set_end_time (Some time_ms)) (row - 1)%nat points1
                else points1 in
              (update_table points2, Applied)
            else
              let points1 := alter (set_end_time (Some time_ms)) row points in
              let points2 :=
                if (row <? length points - 1)%nat
                then alter (set_start_time (Some time_ms)) (row + 1)%nat points1
                else points1 in
              (update_table points2, Applied)
        | None => (update_table points, ParseError)
        end
    end.

(** The user types [text] into the cell [(row, column)]: Qt stores the text
    in the item, when the table has that row, and signals [cellChanged],
    which is connected to [cell_edited]. *)
Definition set_item_text (self : SplitPointsTable) (row column : nat) (text : string)
  : SplitPointsTable :=
  {| split_points := split_points self;
     rows := alter (fun r =>
               match column with
               | 1%nat => mkRow text (end_item r) (duration_item r)
               | 2%nat => mkRow (start_item r) text (duration_item r)
               | _ => r
               end) row (rows self) |}.

Definition edit_cell (self : SplitPointsTable) (row column : nat) (text : string)
  : SplitPointsTable * edit_outcome :=
  cell_edited (set_item_text self row column text) row column.

(** [SplitPointsTable.get_selected_points]: the selected objects, in the
    order of the table, each given by its row in [split_points]. *)
Fixpoint selected_from (i : nat) (points : list SplitPoint) : list nat :=
  match points with
  | [] => []
  | point :: r =>
      if selected point then i :: selected_from (S i) r
      else selected_from (S i) r
  end.

Definition get_selected_points (self : SplitPointsTable) : list nat :=
  selected_from 0 (split_points self).

(** The operations of the sequencer, as the user interface calls them. *)
Inductive table_op :=
| AddPoint (current_time : Z)
| EditCell (row column : nat) (text : string)
| ToggleSelection (row : nat) (checked : bool).

Definition apply_op (self : SplitPointsTable) (op : table_op) : SplitPointsTable :=
  match op with
  | AddPoint current_time => add_split_point self current_time
  | EditCell row column text => fst (edit_cell self row column text)
  | ToggleSelection row checked => toggle_selection self row checked
  end.

Definition run_ops (ops : list table_op) : SplitPointsTable :=
  foldl apply_op SplitPointsTable_init ops.

(** The gapless chain: consecutive split points share their boundary
    whenever both sides of it are set. *)
Definition gapless (points : list SplitPoint) : Prop :=
  forall j p q e s,
    points !! j = Some p -> points !! S j = Some q ->
    end_time p = Some e -> start_time q = Some s -> e = s.

(** The invariant the operations keep: a point starts where the point
    before it ends ([None] on both sides included). *)
Definition linked (points : list SplitPoint) : Prop :=
  forall j p q,
    points !! j = Some p -> points !! S j = Some q -> end_time p = start_time q.

(** The split points after [cell_edited] has applied the time [v] to the
    cell [(row, column)], a time column. *)
Definition edited_points (column row : nat) (v : Z) (points : list SplitPoint)
  : list SplitPoint :=
  if (column =? 1)%nat then
    if (0 <? row)%nat
    then alter (set_end_time (Some v)) (row - 1)%nat
           (alter (set_start_time (Some v)) row points)
    else alter (set_start_time (Some v)) row points
  else
    if (row <? length points - 1)%nat
    then alter (set_start_time (Some v)) (row + 1)%nat
           (alter (set_end_time (Some v)) row points)
    else alter (set_end_time (Some v)) row points.

(** The first point starts at 0. *)
Definition starts_at_0 (points : list SplitPoint) : Prop :=
  forall p, points !! 0%nat = Some p -> start_time p = Some 0.

(** The edits of the start cell of the first row. *)
Definition edits_first_start (op : table_op) : bool :=
  match op with
  | EditCell 0 1 _ => true
  | _ => false
  end.

(** The table and its display agree on the number of rows. *)
Definition displayed (self : SplitPointsTable) : Prop :=
  length (rows self) = length (split_points self).

(** ** [os.path] (POSIX flavour) *)

Module PyPath.
Import PyText.

(** [p.rfind(c)]: the index of the last occurrence. *)
Fixpoint rfind (c : ascii) (p : chars) : option nat :=
  match p with
  | [] => None
  | x :: r =>
      match rfind c r with
      | Some i => Some (S i)
      | None => if ascii_eqb x c then Some 0%nat else None
      end
  end.

(** [os.path.basename(p)]: what follows the last slash. *)
Definition basename (p : chars) : chars :=
  match rfind "/" p with
  | Some i => drop (S i) p
  | None => p
  end.

(** [os.path.splitext(p)[0]]: the last dot cuts, unless it comes before
    the last slash or only dots stand between the slash and it. *)
Definition splitext_root (p : chars) : chars :=
  match rfind "." p with
  | None => p
  | Some dotIndex =>
      let filenameIndex :=
        match rfind "/" p with Some sepIndex => S sepIndex | None => 0%nat end in
      if (filenameIndex <=? dotIndex)%nat
         && existsb (fun c => negb (ascii_eqb c "."))
              (take (dotIndex - filenameIndex) (drop filenameIndex p))
      then take dotIndex p
      else p
  end.

(** [os.path.join(a, b)] *)
Definition join (a b : chars) : chars :=
  match b with
  | c :: _ =>
      if ascii_eqb c "/" then b
      else match last a with
           | None => b
           | Some e => if ascii_eqb e "/" then a ++ b else a ++ "/"%char :: b
           end
  | [] =>
      match last a with
      | None => b
      | Some e => if ascii_eqb e "/" then a ++ b else a ++ "/"%char :: b
      end
  end.

End PyPath.

(** ** [video_splitter.py] *)

(** The signals of [class VideoSplitter]. *)
Inductive signal :=
| progress_updated (current total : nat)
| segment_started (number : nat) (filename : string)
| splitting_completed
| error_occurred (message : string).

(** The calls into MoviePy.  [subclipped_write] stands for
    [video.subclipped(start_sec, end_sec).write_videofile(output_path, ...)]
    with the times given in milliseconds, the source passing [ms / 1000]. *)
Inductive call :=
| VideoFileClip (path : string)
| subclipped_write (start_ms end_ms : Z) (output_path temp_audiofile : string)
| close.

Inductive event :=
| Emit (s : signal)
| Call (c : call).

(** What MoviePy answers.  The numbers it reports are floats, which stay
    abstract: [times_1000 x] is [x * 1000] and [int_of x] is [int(x)].
    A [Some message] or [inl message] is an exception raised by the call,
    [message] being its [str(e)]. *)
Record Clip (float : Type) := mkClip {
  clip_duration : float;
  clip_w : Z;
  clip_h : Z;
  clip_fps : float
}.
Arguments mkClip {float}.
Arguments clip_duration {float}.
Arguments clip_w {float}.
Arguments clip_h {float}.
Arguments clip_fps {float}.

Record MoviePy := mkMoviePy {
  float : Type;
  times_1000 : float -> float;
  int_of : float -> Z;
  open_clip : string -> string + Clip float;
  write_segment : nat -> Z -> Z -> string -> option string
}.

(** [class VideoSplitter] *)
Record VideoSplitter := mkVideoSplitter {
  video_path : option string;
  output_dir : option string
}.

Definition set_video_path (self : VideoSplitter) (video_path : string) : VideoSplitter :=
  {| video_path := Some video_path; output_dir := output_dir self |}.

(** The state the driver runs in: the [SplitPoint] objects (the table's
    list: a reference to an object is its row), the events so far, the
    output files whose encoder call has returned. *)
Record world := mkWorld {
  objects : list SplitPoint;
  events : list event;
  files : list string
}.

(** Computations that change the world and return or raise. *)
Inductive result (A : Type) :=
| Ok (a : A)
| Raise (message : string).
Arguments Ok {A}.
Arguments Raise {A}.

Definition M (A : Type) : Type := world -> world * result A.

Definition ret {A} (a : A) : M A := fun w => (w, Ok a).

Definition bind {A B} (m : M A) (k : A -> M B) : M B :=
  fun w =>
    match m w with
    | (w', Ok a) => k a w'
    | (w', Raise e) => (w', Raise e)
    end.

Definition raise {A} (message : string) : M A := fun w => (w, Raise message).

(** [try: body except Exception as e: handler(str(e))] *)
Definition try_except (body : M unit) (handler : string -> M unit) : M unit :=
  fun w =>
    match body w with
    | (w', Ok a) => (w', Ok a)
    | (w', Raise e) => handler e w'
    end.

#[global] Instance M_ret : MRet M := @ret.
#[global] Instance M_bind : MBind M := fun A B k m => bind m k.

Definition log (e : event) : M unit :=
  fun w => ({| objects := objects w; events := events w ++ [e]; files := files w |}, Ok ()).

Definition emit (s : signal) : M unit := log (Emit s).

Definition get_objects : M (list SplitPoint) := fun w => (w, Ok (objects w)).

Definition put_objects (points : list SplitPoint) : M unit :=
  fun w => ({| objects := points; events := events w; files := files w |}, Ok ()).

Definition add_file (path : string) : M unit :=
  fun w => ({| objects := objects w; events := events w; files := files w ++ [path] |}, Ok ()).

Definition TypeError_div : string :=
  "unsupported operand type(s) for /: 'NoneType' and 'int'".

(** [point.<field> / 1000]: the field of the object [point] refers to,
    in milliseconds; dividing [None] raises a [TypeError].  A reference
    to no object does not occur: the rows come from the table. *)
Definition read_time (field : SplitPoint -> option Z) (point : nat) : M Z :=
  fun w =>
    match field <$> objects w !! point with
    | Some (Some ms) => (w, Ok ms)
    | _ => (w, Raise TypeError_div)
    end.

Fixpoint for_enumerate {A} (i : nat) (l : list A) (body : nat -> A -> M unit) : M unit :=
  match l with
  | [] => ret ()
  | x :: r => body i x ;; for_enumerate (S i) r body
  end.

Definition truthy (s : option string) : bool :=
  match s with
  | Some s => negb (String.eqb s "")
  | None => false
  end.

Definition str_of_nat (n : nat) : string :=
  string_of_list_ascii (PyText.str (Z.of_nat n)).

Definition path_join (a b : string) : string :=
  string_of_list_ascii (PyPath.join (list_ascii_of_string a) (list_ascii_of_string b)).

(** [f"{base_name}_split_{i+1}.mp4"] *)
Definition output_filename (base_name : string) (i : nat) : string :=
  (base_name ++ "_split_" ++ str_of_nat (i + 1) ++ ".mp4")%string.

(** [os.path.join(self.output_dir, f"temp_audio_{i}.m4a")] *)
Definition temp_audiofile (out_dir : string) (i : nat) : string :=
  path_join out_dir ("temp_audio_" ++ str_of_nat i ++ ".m4a")%string.

(** [os.path.splitext(os.path.basename(self.video_path))[0]] *)
Definition base_name_of (video_path : string) : string :=
  string_of_list_ascii
    (PyPath.splitext_root (PyPath.basename (list_ascii_of_string video_path))).

Section Driver.
Variable mp : MoviePy.

(** [VideoFileClip(path)] *)
Definition open_video (path : string) : M (Clip (float mp)) :=
  log (Call (VideoFileClip path)) ;;
  match open_clip mp path with
  | inr video => ret video
  | inl message => raise message
  end.

(** [video.close()] *)
Definition close_video : M unit := log (Call close).

(** [video.subclipped(...)] and [segment.write_videofile(...)] *)
Definition write_videofile (i : nat) (start_ms end_ms : Z)
           (output_path temp_audiofile : string) : M unit :=
  log (Call (subclipped_write start_ms end_ms output_path temp_audiofile)) ;;
  match write_segment mp i start_ms end_ms output_path with
  | None => add_file output_path
  | Some message => raise message
  end.

(** The body of the loop of [split_video]. *)
Definition process_point (out_dir base_name : string) (total_segments : nat)
           (i : nat) (point : nat) : M unit :=
  start_ms ← read_time start_time point;
  end_ms ← read_time end_time point;
  let output_filename := output_filename base_name i in
  let output_path := path_join out_dir output_filename in
  emit (segment_started (i + 1) output_filename) ;;
  emit (progress_updated i total_segments) ;;
  write_videofile i start_ms end_ms output_path (temp_audiofile out_dir i).

(** [if split_points and split_points[-1].end_time is None:
       split_points[-1].end_time = int(video.duration * 1000)] *)
Definition resolve_last_end (video : Clip (float mp)) (split_points : list nat) : M unit :=
  match last split_points with
  | None => ret ()
  | Some point =>
      points ← get_objects;
      match end_time <$> points !! point with
      | Some None =>
          put_objects
            (alter (set_end_time (Some (int_of mp (times_1000 mp (clip_duration video)))))
               point points)
      | _ => ret ()
      end
  end.

(** [VideoSplitter.split_video] *)
Definition split_video (self : VideoSplitter) (split_points : list nat) : M unit :=
  if negb (truthy (video_path self)) || negb (truthy (output_dir self)) then
    emit (error_occurred "Video path or output directory not set")
  else
    match split_points with
    | [] => emit (error_occurred "No split points defined")
    | _ =>
        let path := default ""%string (video_path self) in
        let out_dir := default ""%string (output_dir self) in
        try_except
          (let base_name := base_name_of path in
           video ← open_video path;
           resolve_last_end video split_points ;;
           let total_segments := length split_points in
           for_enumerate 0 split_points
             (process_point out_dir base_name total_segments) ;;
           close_video ;;
           emit (progress_updated total_segments total_segments) ;;
           emit splitting_completed)
          (fun e => emit (error_occurred ("Error splitting video: " ++ e)))
    end.

(** The dictionary returned by [get_video_info]. *)
Record video_info := mkInfo {
  info_duration : float mp;
  info_width : Z;
  info_height : Z;
  info_fps : float mp;
  info_filename : string
}.

(** [VideoSplitter.get_video_info] *)
Definition get_video_info (self : VideoSplitter) : M (option video_info) :=
  if negb (truthy (video_path self)) then ret None
  else
    let path := default ""%string (video_path self) in
    fun w =>
      match (video ← open_video path;
             let info :=
               {| info_duration := times_1000 mp (clip_duration video);
                  info_width := clip_w video;
                  info_height := clip_h video;
                  info_fps := clip_fps video;
                  info_filename :=
                    string_of_list_ascii (PyPath.basename (list_ascii_of_string path)) |} in
             close_video ;;
             ret (Some info)) w with
      | (w', Ok info) => (w', Ok info)
      | (w', Raise e) =>
          (emit (error_occurred ("Error getting video info: " ++ e)) ;; ret None) w'
      end.

End Driver.

(** *** What a run of the export looks like *)

(** The start and the end of the object a reference points to, when both
    are set. *)
Definition point_times (points : list SplitPoint) (point : nat) : option (Z * Z) :=
  p ← points !! point;
  s ← start_time p;
  e ← end_time p;
  Some (s, e).

(** The objects after the end of the last given point has been resolved to
    the duration [d] of the video. *)
Definition resolved (d : Z) (split_points : list nat) (points : list SplitPoint)
  : list SplitPoint :=
  match last split_points with
  | Some point =>
      match end_time <$> points !! point with
      | Some None => alter (set_end_time (Some d)) point points
      | _ => points
      end
  | None => points
  end.

(** The two signals that announce segment [i] (counted from 0). *)
Definition segment_signals (base_name : string) (total : nat) (i : nat) : list signal :=
  [segment_started (i + 1) (output_filename base_name i); progress_updated i total].

(** The encoder call for segment [i]. *)
Definition segment_call (out_dir base_name : string) (i : nat) (times : Z * Z) : call :=
  subclipped_write (fst times) (snd times)
    (path_join out_dir (output_filename base_name i)) (temp_audiofile out_dir i).

Definition segment_events (out_dir base_name : string) (total : nat) (i : nat)
           (times : Z * Z) : list event :=
  (Emit <$> segment_signals base_name total i)
  ++ [Call (segment_call out_dir base_name i times)].

(** The events of the loop over the points [split_points], numbered from
    [i], as long as the encoder is called for each of them. *)
Fixpoint loop_events (points : list SplitPoint) (out_dir base_name : string)
         (total : nat) (i : nat) (split_points : list nat) : list event :=
  match split_points with
  | [] => []
  | point :: r =>
      match point_times points point with
      | Some times => segment_events out_dir base_name total i times
      | None => []
      end ++ loop_events points out_dir base_name total (S i) r
  end.

(** The encoder calls of the loop, in the order of [split_points]. *)
Fixpoint loop_calls (points : list SplitPoint) (out_dir base_name : string)
         (i : nat) (split_points : list nat) : list call :=
  match split_points with
  | [] => []
  | point :: r =>
      match point_times points point with
      | Some times => [segment_call out_dir base_name i times]
      | None => []
      end ++ loop_calls points out_dir base_name (S i) r
  end.

(** The output paths of the segments [i], ..., [i + n - 1]. *)
Definition loop_files (out_dir base_name : string) (i n : nat) : list string :=
  (fun k => path_join out_dir (output_filename base_name k)) <$> seq i n.

(** A MoviePy whose encoder fails on every call, and one that succeeds on
    every call; the video lasts 90 seconds. *)
Definition failing_encoder : MoviePy :=
  {| float := Z;
     times_1000 := fun x => x * 1000;
     int_of := fun x => x;
     open_clip := fun _ => inr (mkClip 90 640 480 30);
     write_segment := fun _ _ _ _ => Some "encoder failed"%string |}.

Definition working_encoder : MoviePy :=
  {| float := Z;
     times_1000 := fun x => x * 1000;
     int_of := fun x => x;
     open_clip := fun _ => inr (mkClip 90 640 480 30);
     write_segment := fun _ _ _ _ => None |}.

(** A MoviePy whose encoder fails on the second segment only. *)
Definition second_fails : MoviePy :=
  {| float := Z;
     times_1000 := fun x => x * 1000;
     int_of := fun x => x;
     open_clip := fun _ => inr (mkClip 90 640 480 30);
     write_segment := fun i _ _ _ =>
       if (i =? 1)%nat then Some "encoder failed"%string else None |}.

(** The driver has a source path and an output directory. *)
Definition configured (self : VideoSplitter) (path out_dir : string) : Prop :=
  video_path self = Some path /\ output_dir self = Some out_dir
  /\ path <> ""%string /\ out_dir <> ""%string.

(** The world a computation starts in. *)
Definition world_of (points : list SplitPoint) : world :=
  {| objects := points; events := []; files := [] |}.

Definition signals_of (evs : list event) : list signal :=
  omap (fun e => match e with Emit s => Some s | Call _ => None end) evs.

Definition calls_of (evs : list event) : list call :=
  omap (fun e => match e with Call c => Some c | Emit _ => None end) evs.

(** The video resource is released when [close] has been called. *)
Definition released (evs : list event) : bool :=
  existsb (fun e => match e with Call close => true | _ => false end) evs.

Definition opened (evs : list event) : bool :=
  existsb (fun e => match e with Call (VideoFileClip _) => true | _ => false end) evs.

(** ** The texts [parse_time] reads, written out

    These definitions describe the accepted texts by their shape, without
    the functions of the code; [parse_time] is compared with them. *)

(** The blanks [int()] drops around a number in a text of ASCII characters:
    tab, line feed, vertical tab, form feed, carriage return and space. *)
Definition blank (c : ascii) : bool :=
  existsb (Nat.eqb (nat_of_ascii c)) [9; 10; 11; 12; 13; 32]%nat.

(** The ten digits [0] to [9]. *)
Definition decimal_digit (c : ascii) : bool :=
  existsb (Ascii.eqb c) ["0"; "1"; "2"; "3"; "4"; "5"; "6"; "7"; "8"; "9"]%char.

(** A non-empty run of digits. *)
Definition digit_run (g : list ascii) : Prop :=
  g <> [] /\ Forall (fun c => decimal_digit c = true) g.

(** The number a run of digits stands for, in base ten. *)
Definition decimal_value (g : list ascii) : Z :=
  fold_left (fun a c => a * 10 + (Z.of_nat (nat_of_ascii c) - 48)) g 0.

(** The runs [g], [h1], [h2], ... with one underscore between two of
    them: [g_h1_h2...]. *)
Definition underscored (g : list ascii) (groups : list (list ascii)) : list ascii :=
  g ++ concat ((fun h => "_"%char :: h) <$> groups).

(** An integer literal and its value: blanks, at most one sign, runs of
    digits with one underscore between two runs, blanks. *)
Definition int_literal (s : list ascii) (v : Z) : Prop :=
  exists ws1 sign g groups ws2,
    s = ws1 ++ sign ++ underscored g groups ++ ws2
    /\ Forall (fun c => blank c = true) ws1
    /\ Forall (fun c => blank c = true) ws2
    /\ Forall digit_run (g :: groups)
    /\ (((sign = [] \/ sign = ["+"%char])
         /\ v = decimal_value (g ++ concat groups))
        \/ (sign = ["-"%char] /\ v = - decimal_value (g ++ concat groups))).

(** A time text [h:m:s.ms] of four integer literals and its value in
    milliseconds. *)
Definition time_literal (time_str : string) (v : Z) : Prop :=
  exists h m s ms vh vm vs vms,
    list_ascii_of_string time_str
    = h ++ ":"%char :: m ++ ":"%char :: s ++ "."%char :: ms
    /\ int_literal h vh /\ int_literal m vm
    /\ int_literal s vs /\ int_literal ms vms
    /\ v = (vh * 3600 + vm * 60 + vs) * 1000 + vms.

(** A text of ASCII characters only. *)
Definition ascii_text (time_str : string) : Prop :=
  Forall (fun c => (nat_of_ascii c < 128)%nat) (list_ascii_of_string time_str).

(** [SplitPointsTable.toggle_selection] with the state that the check
    box's [stateChanged] delivers.  [state_is_checked state] is the value of
    the comparison [state == Qt.Checked], which depends on the Qt binding:
    an integer state equals the enumeration value under some versions of the
    binding and never does under others. *)
Definition toggle_selection_state (state_is_checked : Z -> bool)
           (self : SplitPointsTable) (row : nat) (state : Z) : SplitPointsTable :=
  toggle_selection self row (state_is_checked state).

(** ** Further notions about the table *)

(** Every point has both its times set. *)
Definition all_set (points : list SplitPoint) : Prop :=
  Forall (fun p => is_Some (start_time p) /\ is_Some (end_time p)) points.

(** The sum of the durations of the points. *)
Definition total_duration (points : list SplitPoint) : Z :=
  foldr Z.add 0 (duration <$> points).

(** The display shows the split points as [update_table] draws them. *)
Definition drawn (self : SplitPointsTable) : Prop :=
  rows self = row_of <$> split_points self.

(** A MoviePy that cannot open the video. *)
Definition cannot_open : MoviePy :=
  {| float := Z;
     times_1000 := fun x => x * 1000;
     int_of := fun x => x;
     open_clip := fun _ => inl "file not found"%string;
     write_segment := fun _ _ _ _ => None |}.

(** The points that consecutive calls of [add_split_point] with the times
    [times] append, the first of them starting at [start]. *)
Fixpoint points_from (start : option Z) (times : list Z) : list SplitPoint :=
  match times with
  | [] => []
  | t :: r => mkSplitPoint start (Some t) true :: points_from (Some t) r
  end.

(** The number of [add_split_point] calls among operations. *)
Fixpoint count_adds (ops : list table_op) : nat :=
  match ops with
  | [] => 0
  | AddPoint _ :: r => S (count_adds r)
  | _ :: r => count_adds r
  end.

(** ** Further notions about the export *)

(** The signals that end an export for the user interface. *)
Definition terminal (s : signal) : bool :=
  match s with
  | splitting_completed | error_occurred _ => true
  | _ => false
  end.

(** An event that is not a terminal signal. *)
Definition quiet (e : event) : bool :=
  match e with
  | Emit s => negb (terminal s)
  | Call _ => true
  end.

(** ** [video_player.py] *)

(** [VideoPlayer.format_time] *)
Definition player_format_time (ms : option Z) : string :=
  match ms with
  | None => "00:00:00.000"
  | Some ms =>
      let seconds := ms / 1000 in
      let minutes := seconds / 60 in
      let hours := minutes / 60 in
      string_of_list_ascii
        (PyText.format_0d 2 hours ++ ":"%char ::
         PyText.format_0d 2 (minutes mod 60) ++ ":"%char ::
         PyText.format_0d 2 (seconds mod 60) ++ "."%char ::
         PyText.format_0d 3 (ms mod 1000))
  end.

(** The texts the input mask ["99:99:99.999"] of the time field is full
    with: two digits, two digits, two digits and three digits. *)
Definition fits_mask (text : string) : bool :=
  match list_ascii_of_string text with
  | [h1; h2; c1; m1; m2; c2; s1; s2; d; k1; k2; k3] =>
      PyText.is_digit h1 && PyText.is_digit h2 && PyText.ascii_eqb c1 ":"
      && PyText.is_digit m1 && PyText.is_digit m2 && PyText.ascii_eqb c2 ":"
      && PyText.is_digit s1 && PyText.is_digit s2 && PyText.ascii_eqb d "."
      && PyText.is_digit k1 && PyText.is_digit k2 && PyText.is_digit k3
  | _ => false
  end.

(** [class VideoPlayer]: the position of the media player, in
    milliseconds, and what the slider, the label and the time field show. *)
Record VideoPlayer := mkPlayer {
  position : Z;
  slider_value : Z;
  time_label : string;
  time_edit : string
}.

Section Player.
(** [masked text] is what the time field holds after [setText(text)]: Qt
    fits the text to the input mask. *)
Variable masked : string -> string.

(** [VideoPlayer.position_changed], the slot of the media player's
    [positionChanged]: the media player is at the position it reports. *)
Definition position_changed (self : VideoPlayer) (new_position : Z) : VideoPlayer :=
  let time_str := player_format_time (Some new_position) in
  {| position := new_position;
     slider_value := new_position;
     time_label := time_str;
     time_edit := masked time_str |}.

(** [VideoPlayer.time_edit_changed]: the new player and, when the text
    parses, the position passed to [media_player.setPosition]. *)
Definition time_edit_changed (self : VideoPlayer) : VideoPlayer * option Z :=
  let time_str := time_edit self in
  let parsed :=
    match PyText.split ":" (list_ascii_of_string time_str) with
    | [hours; minutes; rest] =>
        match PyText.split "." rest with
        | [seconds; milliseconds] =>
            h ← PyText.int hours;
            m ← PyText.int minutes;
            s ← PyText.int seconds;
            ms ← PyText.int milliseconds;
            Some ((h * 3600 + m * 60 + s) * 1000 + ms)
        | _ => None
        end
    | _ => None
    end in
  match parsed with
  | Some total_ms => (self, Some total_ms)
  | None =>
      ({| position := position self;
          slider_value := slider_value self;
          time_label := time_label self;
          time_edit := masked (player_format_time (Some (position self))) |},
       None)
  end.

End Player.

(** ** [main_window.py]: starting an export *)

(** The message boxes the window shows. *)
Inductive dialog :=
| warning (title text : string)
| information (title text : string)
| critical (title text : string).

(** [class MainWindow]: the fields and the widget states that
    [start_splitting] and the slots of the driver's signals read or write.
    The flags of the three buttons tell whether they are enabled. *)
Record MainWindow := mkWindow {
  current_video_path : option string;
  window_output_dir : option string;
  video_splitter : VideoSplitter;
  split_points_table : SplitPointsTable;
  start_splitting_btn : bool;
  open_btn : bool;
  select_output_btn : bool;
  progress_bar_visible : bool;
  progress_bar_value : Z;
  status_message : string;
  dialogs : list dialog
}.

(** The lines under [# Reset UI] of [splitting_completed] and
    [show_error]. *)
Definition reset_ui (self : MainWindow) (status : string) (d : dialog) : MainWindow :=
  {| current_video_path := current_video_path self;
     window_output_dir := window_output_dir self;
     video_splitter := video_splitter self;
     split_points_table := split_points_table self;
     start_splitting_btn := true;
     open_btn := true;
     select_output_btn := true;
     progress_bar_visible := false;
     progress_bar_value := progress_bar_value self;
     status_message := status;
     dialogs := dialogs self ++ [d] |}.

Definition set_status (self : MainWindow) (status : string) : MainWindow :=
  {| current_video_path := current_video_path self;
     window_output_dir := window_output_dir self;
     video_splitter := video_splitter self;
     split_points_table := split_points_table self;
     start_splitting_btn := start_splitting_btn self;
     open_btn := open_btn self;
     select_output_btn := select_output_btn self;
     progress_bar_visible := progress_bar_visible self;
     progress_bar_value := progress_bar_value self;
     status_message := status;
     dialogs := dialogs self |}.

Definition set_progress (self : MainWindow) (value : Z) : MainWindow :=
  {| current_video_path := current_video_path self;
     window_output_dir := window_output_dir self;
     video_splitter := video_splitter self;
     split_points_table := split_points_table self;
     start_splitting_btn := start_splitting_btn self;
     open_btn := open_btn self;
     select_output_btn := select_output_btn self;
     progress_bar_visible := progress_bar_visible self;
     progress_bar_value := value;
     status_message := status_message self;
     dialogs := dialogs self |}.

Section Window.
(** [percent current total] is [int((current / total) * 100)], a
    floating-point computation. *)
Variable percent : nat -> nat -> Z.

(** [MainWindow.update_progress] *)
Definition update_progress (self : MainWindow) (current total : nat) : MainWindow :=
  let progress_percent := if (0 <? total)%nat then percent current total else 0 in
  set_progress self progress_percent.

(** [MainWindow.segment_started] *)
Definition segment_started_slot (self : MainWindow) (segment_num : nat) (filename : string)
  : MainWindow :=
  set_status self
    ("Processing segment " ++ str_of_nat segment_num ++ ": " ++ filename)%string.

(** [MainWindow.splitting_completed] *)
Definition splitting_completed_slot (self : MainWindow) : MainWindow :=
  reset_ui self "Splitting completed successfully"
    (information "Splitting Completed"
       ("Video has been successfully split into "
        ++ str_of_nat (length (get_selected_points (split_points_table self)))
        ++ " segments.")%string).

(** [MainWindow.show_error] *)
Definition show_error (self : MainWindow) (error_message : string) : MainWindow :=
  reset_ui self ("Error: " ++ error_message)%string
    (critical "Error" ("An error occurred: " ++ error_message)%string).

(** The connections of [setup_connections] for the signals of the driver:
    Qt calls the slot while the signal is emitted. *)
Definition slot (self : MainWindow) (s : signal) : MainWindow :=
  match s with
  | progress_updated current total => update_progress self current total
  | segment_started number filename => segment_started_slot self number filename
  | splitting_completed => splitting_completed_slot self
  | error_occurred message => show_error self message
  end.

Variable mp : MoviePy.

(** [MainWindow.start_splitting]: the window afterwards and the world the
    driver leaves.  The driver works on the objects of the table; the slots
    touch the widgets only, so they are run here on the signals in the order
    in which the driver has emitted them. *)
Definition start_splitting (self : MainWindow) : MainWindow * world :=
  let table := split_points_table self in
  let w0 := world_of (split_points table) in
  if negb (truthy (current_video_path self)) || negb (truthy (window_output_dir self))
  then (self, w0)
  else
    let selected_points := get_selected_points table in
    match selected_points with
    | [] =>
        ({| current_video_path := current_video_path self;
            window_output_dir := window_output_dir self;
            video_splitter := video_splitter self;
            split_points_table := table;
            start_splitting_btn := start_splitting_btn self;
            open_btn := open_btn self;
            select_output_btn := select_output_btn self;
            progress_bar_visible := progress_bar_visible self;
            progress_bar_value := progress_bar_value self;
            status_message := status_message self;
            dialogs := dialogs self
                       ++ [warning "No Split Points Selected"
                             "Please select at least one split point to proceed."] |},
         w0)
    | _ =>
        let w' := fst (split_video mp (video_splitter self) selected_points w0) in
        let prepared :=
          {| current_video_path := current_video_path self;
             window_output_dir := window_output_dir self;
             video_splitter := video_splitter self;
             split_points_table :=
               {| split_points := objects w'; rows := rows table |};
             start_splitting_btn := false;
             open_btn := false;
             select_output_btn := false;
             progress_bar_visible := true;
             progress_bar_value := 0;
             status_message := "Splitting video...";
             dialogs := dialogs self |} in
        (foldl slot prepared (signals_of (events w')), w')
    end.

End Window.

(** * Properties *)

(** ** The text built-ins *)

Module PyTextFacts.
Import PyText.

Lemma digit_char_cases d :
  0 <= d < 10 ->
  is_digit (digit_char d) = true /\ digit_val (digit_char d) = d.
Proof.
  intros H.
  assert (d = 0 \/ d = 1 \/ d = 2 \/ d = 3 \/ d = 4 \/ d = 5 \/ d = 6
          \/ d = 7 \/ d = 8 \/ d = 9) as Hd by lia.
  repeat (destruct Hd as [-> | Hd]; [split; reflexivity |]).
  subst d. split; reflexivity.
Qed.

Lemma is_digit_neq c x :
  is_digit c = true -> is_digit x = false -> ascii_eqb c x = false.
Proof.
  intros Hc Hx. unfold ascii_eqb.
  destruct (Ascii.eqb_spec c x) as [-> | _]; [congruence | reflexivity].
Qed.

Lemma is_digit_not_space c : is_digit c = true -> is_space c = false.
Proof.
  unfold is_digit, is_space. cbv zeta. intros H.
  apply andb_true_iff in H as [H1 H2].
  apply Nat.leb_le in H1. apply Nat.leb_le in H2.
  apply orb_false_iff. split.
  - apply andb_false_iff. right. apply Nat.leb_gt. lia.
  - apply Nat.eqb_neq. lia.
Qed.

Lemma value_app s t acc : value (s ++ t) acc = value t (value s acc).
Proof. unfold value. apply fold_left_app. Qed.

Lemma all_digits_app s t : all_digits s -> all_digits t -> all_digits (s ++ t).
Proof. unfold all_digits. intros. apply Forall_app. auto. Qed.

(** [digits_aux] puts the digits of [n] in front of [acc]. *)
Lemma digits_aux_spec fuel : forall n acc,
  (0 < fuel)%nat ->
  0 <= n < 2 ^ Z.of_nat fuel ->
  exists ds, digits_aux fuel n acc = ds ++ acc
             /\ all_digits ds /\ ds <> [] /\ value ds 0 = n.
Proof.
  induction fuel as [| f IH]; intros n acc Hf Hn; [lia |].
  - cbn [digits_aux].
    assert (0 <= n mod 10 < 10) as Hm by (apply Z.mod_pos_bound; lia).
    destruct (digit_char_cases _ Hm) as [Hdig Hval].
    destruct (Z.ltb_spec n 10) as [Hlt | Hge].
    + exists [digit_char (n mod 10)]. repeat split.
      * constructor; [exact Hdig | constructor].
      * discriminate.
      * unfold value. cbn. rewrite Hval. rewrite Z.mod_small; lia.
    + assert (0 <= n / 10 < 2 ^ Z.of_nat f) as Hq.
      { split; [apply Z.div_pos; lia |].
        apply Z.div_lt_upper_bound; [lia |].
        rewrite Nat2Z.inj_succ, Z.pow_succ_r in Hn by lia. lia. }
      assert (0 < f)%nat as Hf'.
      { destruct f; [| lia]. change (2 ^ Z.of_nat 0) with 1 in Hq.
        assert (1 <= n / 10) by (apply Z.div_le_lower_bound; lia). lia. }
      destruct (IH (n / 10) (digit_char (n mod 10) :: acc) Hf' Hq)
        as (ds & Heq & Hall & _ & Hv).
      exists (ds ++ [digit_char (n mod 10)]). repeat split.
      * rewrite Heq, <- app_assoc. reflexivity.
      * apply all_digits_app; [exact Hall |].
        constructor; [exact Hdig | constructor].
      * intros E. apply app_eq_nil in E as [_ E]. discriminate.
      * rewrite value_app, Hv. unfold value. cbn. rewrite Hval.
        pose proof (Z.div_mod n 10). lia.
Qed.

Lemma digits_spec n :
  0 <= n -> all_digits (digits n) /\ digits n <> [] /\ value (digits n) 0 = n.
Proof.
  intros Hn. unfold digits.
  assert (0 <= n < 2 ^ Z.of_nat (S (Z.to_nat (Z.log2 n)))) as Hb.
  { split; [exact Hn |].
    rewrite Nat2Z.inj_succ, Z2Nat.id by apply Z.log2_nonneg.
    destruct (Z.eq_dec n 0) as [-> | Hne]; [reflexivity |].
    apply Z.log2_spec. lia. }
  destruct (digits_aux_spec _ n [] (Nat.lt_0_succ _) Hb) as (ds & Heq & Hall & Hne & Hv).
  rewrite Heq, app_nil_r. auto.
Qed.

Lemma value_zeros k s :
  value (replicate k "0"%char ++ s) 0 = value s 0.
Proof.
  rewrite value_app. f_equal.
  induction k as [| k IH]; [reflexivity |].
  cbn [replicate]. unfold value in *. cbn [fold_left]. exact IH.
Qed.

Lemma zfill_spec width ds :
  all_digits ds -> ds <> [] ->
  all_digits (zfill width ds) /\ zfill width ds <> []
  /\ value (zfill width ds) 0 = value ds 0.
Proof.
  intros Hall Hne. unfold zfill. repeat split.
  - apply all_digits_app; [| exact Hall].
    apply Forall_forall. intros c Hc.
    apply elem_of_replicate in Hc as [-> _]. reflexivity.
  - intros E. apply app_eq_nil in E as [_ E]. contradiction.
  - apply value_zeros.
Qed.

(** A formatted non-negative number is a non-empty run of digits that
    reads as the number. *)
Lemma format_0d_spec width n :
  0 <= n ->
  all_digits (format_0d width n) /\ format_0d width n <> []
  /\ value (format_0d width n) 0 = n.
Proof.
  intros Hn. unfold format_0d.
  destruct (Z.ltb_spec n 0) as [Hneg | _]; [lia |].
  destruct (digits_spec n Hn) as (Hall & Hne & Hv).
  destruct (zfill_spec width _ Hall Hne) as (H1 & H2 & H3).
  repeat split; [exact H1 | exact H2 | congruence].
Qed.

Lemma scan_digits_all s : forall acc,
  all_digits s -> scan_digits s acc true = Some (value s acc).
Proof.
  induction s as [| c r IH]; intros acc Hall; [reflexivity |].
  inversion Hall as [| ? ? Hc Hr]; subst.
  cbn [scan_digits]. rewrite Hc. rewrite IH by exact Hr. reflexivity.
Qed.

Lemma scan_digits_start s acc :
  all_digits s -> s <> [] -> scan_digits s acc false = Some (value s acc).
Proof.
  intros Hall Hne. destruct s as [| c r]; [contradiction |].
  inversion Hall as [| ? ? Hc Hr]; subst.
  cbn [scan_digits]. rewrite Hc. rewrite scan_digits_all by exact Hr. reflexivity.
Qed.

Lemma lstrip_digits s : all_digits s -> lstrip s = s.
Proof.
  intros Hall. destruct s as [| c r]; [reflexivity |].
  inversion Hall as [| ? ? Hc Hr]; subst.
  cbn [lstrip]. rewrite (is_digit_not_space _ Hc). reflexivity.
Qed.

Lemma strip_digits s : all_digits s -> strip s = s.
Proof.
  intros Hall. unfold strip, rstrip. rewrite (lstrip_digits _ Hall).
  rewrite lstrip_digits; [apply rev_involutive |].
  apply Forall_rev. exact Hall.
Qed.

(** [int] reads a non-empty run of digits as its value. *)
Lemma int_digits s :
  all_digits s -> s <> [] -> int s = Some (value s 0).
Proof.
  intros Hall Hne. unfold int. rewrite (strip_digits _ Hall).
  destruct s as [| c r]; [contradiction |].
  assert (is_digit c = true) as Hc by (inversion Hall; assumption).
  rewrite (is_digit_neq c "-" Hc eq_refl), (is_digit_neq c "+" Hc eq_refl).
  apply scan_digits_start; assumption.
Qed.

Lemma int_format_0d width n : 0 <= n -> int (format_0d width n) = Some n.
Proof.
  intros Hn. destruct (format_0d_spec width n Hn) as (Hall & Hne & Hv).
  rewrite (int_digits _ Hall Hne), Hv. reflexivity.
Qed.

(** [split] on a text without the separator, and on a text whose first
    separator is known. *)
Lemma split_none sep s :
  Forall (fun c => ascii_eqb c sep = false) s -> split sep s = [s].
Proof.
  induction 1 as [| c r Hc _ IH]; [reflexivity |].
  cbn [split]. rewrite Hc, IH. reflexivity.
Qed.

Lemma split_cons sep s t :
  Forall (fun c => ascii_eqb c sep = false) s ->
  split sep (s ++ sep :: t) = s :: split sep t.
Proof.
  induction 1 as [| c r Hc _ IH]; cbn [split app].
  - unfold ascii_eqb. rewrite Ascii.eqb_refl. reflexivity.
  - rewrite Hc, IH. reflexivity.
Qed.

Lemma all_digits_no sep s :
  is_digit sep = false -> all_digits s ->
  Forall (fun c => ascii_eqb c sep = false) s.
Proof.
  intros Hsep Hall. eapply Forall_impl; [exact Hall |].
  cbn. intros c Hc. apply is_digit_neq; assumption.
Qed.

End PyTextFacts.

(** ** The time text format *)

Section TimeFormat.
Import PyText PyTextFacts.

Lemma colon_not_digit : is_digit ":" = false.
Proof. reflexivity. Qed.

Lemma dot_not_digit : is_digit "." = false.
Proof. reflexivity. Qed.

(** The four fields of a text [h:m:s.ms] whose fields are runs of digits
    are found by the two [split]s of [parse_time]. *)
Lemma split_time_fields h m s ms :
  all_digits h -> all_digits m -> all_digits s -> all_digits ms ->
  split ":" (h ++ ":"%char :: m ++ ":"%char :: s ++ "."%char :: ms)
  = [h; m; s ++ "."%char :: ms]
  /\ split "." (s ++ "."%char :: ms) = [s; ms].
Proof.
  intros Hh Hm Hs Hms. split.
  - rewrite split_cons by (apply all_digits_no; [reflexivity | exact Hh]).
    rewrite split_cons by (apply all_digits_no; [reflexivity | exact Hm]).
    rewrite split_none; [reflexivity |].
    apply Forall_app. split; [apply all_digits_no; [reflexivity | exact Hs] |].
    constructor; [reflexivity |].
    apply all_digits_no; [reflexivity | exact Hms].
  - rewrite split_cons by (apply all_digits_no; [reflexivity | exact Hs]).
    rewrite split_none; [reflexivity |].
    apply all_digits_no; [reflexivity | exact Hms].
Qed.

(** [parse_time] on a text whose four fields are runs of digits. *)
Lemma parse_time_digit_fields h m s ms :
  all_digits h -> h <> [] -> all_digits m -> m <> [] ->
  all_digits s -> s <> [] -> all_digits ms -> ms <> [] ->
  parse_time (string_of_list_ascii
                (h ++ ":"%char :: m ++ ":"%char :: s ++ "."%char :: ms))
  = Some ((value h 0 * 3600 + value m 0 * 60 + value s 0) * 1000 + value ms 0).
Proof.
  intros Hh Nh Hm Nm Hs Ns Hms Nms. unfold parse_time.
  rewrite list_ascii_of_string_of_list_ascii.
  destruct (split_time_fields h m s ms Hh Hm Hs Hms) as [-> ->].
  rewrite (int_digits h Hh Nh), (int_digits m Hm Nm),
    (int_digits s Hs Ns), (int_digits ms Hms Nms).
  reflexivity.
Qed.

Lemma time_arith m :
  0 <= m ->
  (m / 1000 / 60 / 60 * 3600 + (m / 1000 / 60) mod 60 * 60 + (m / 1000) mod 60)
  * 1000 + m mod 1000 = m.
Proof.
  intros _.
  pose proof (Z.div_mod m 1000 ltac:(lia)).
  pose proof (Z.div_mod (m / 1000) 60 ltac:(lia)).
  pose proof (Z.div_mod (m / 1000 / 60) 60 ltac:(lia)).
  lia.
Qed.

End TimeFormat.

(** C3: for every non-negative integer millisecond value [m], parsing the
    text that [format_time] produces for [m] gives [m] back:
    [parse(format(m)) == m]. *)
Theorem parse_format_roundtrip (m : Z) :
  0 <= m -> parse_time (format_time (Some m)) = Some m.
Proof.
  intros Hm. unfold format_time. cbv zeta.
  assert (0 <= m / 1000) as H1 by (apply Z.div_pos; lia).
  assert (0 <= m / 1000 / 60) as H2 by (apply Z.div_pos; lia).
  assert (0 <= m / 1000 / 60 / 60) as H3 by (apply Z.div_pos; lia).
  assert (0 <= (m / 1000 / 60) mod 60) as H4 by (apply Z.mod_pos_bound; lia).
  assert (0 <= (m / 1000) mod 60) as H5 by (apply Z.mod_pos_bound; lia).
  assert (0 <= m mod 1000) as H6 by (apply Z.mod_pos_bound; lia).
  destruct (PyTextFacts.format_0d_spec 2 _ H3) as (Ah & Nh & Vh).
  destruct (PyTextFacts.format_0d_spec 2 _ H4) as (Am & Nm & Vm).
  destruct (PyTextFacts.format_0d_spec 2 _ H5) as (As & Ns & Vs).
  destruct (PyTextFacts.format_0d_spec 3 _ H6) as (Ams & Nms & Vms).
  rewrite parse_time_digit_fields by assumption.
  rewrite Vh, Vm, Vs, Vms. f_equal. apply time_arith. exact Hm.
Qed.

Lemma parse_format_roundtrip_witness :
  0 <= 3723004 /\ parse_time (format_time (Some 3723004)) = Some 3723004.
Proof. split; [lia | apply (parse_format_roundtrip 3723004); lia]. Defined.

(** ** What [parse_time] accepts *)

Section ParseShape.
Import PyText PyTextFacts.

Lemma span_digits_spec s : forall ds rest,
  span_digits s = (ds, rest) -> s = ds ++ rest /\ all_digits ds.
Proof.
  induction s as [| c r IH]; intros ds rest E; cbn [span_digits] in E.
  - injection E as <- <-. split; [reflexivity | constructor].
  - destruct (is_digit c) eqn:Hc.
    + destruct (span_digits r) as [ds' rest'] eqn:Er.
      injection E as <- <-.
      destruct (IH _ _ eq_refl) as [-> Hall].
      split; [reflexivity | constructor; assumption].
    + injection E as <- <-. split; [reflexivity | constructor].
Qed.

Lemma digit_val_nonneg c : is_digit c = true -> 0 <= digit_val c.
Proof.
  unfold is_digit, digit_val. cbv zeta. intros H.
  apply andb_true_iff in H as [H _]. apply Nat.leb_le in H. lia.
Qed.

Lemma value_nonneg s : forall acc, all_digits s -> 0 <= acc -> 0 <= value s acc.
Proof.
  induction s as [| c r IH]; intros acc Hall Hacc; [exact Hacc |].
  inversion Hall as [| ? ? Hc Hr]; subst.
  change (value (c :: r) acc) with (value r (acc * 10 + digit_val c)).
  apply IH; [exact Hr |]. pose proof (digit_val_nonneg c Hc). lia.
Qed.

(** [split] read backwards: the first field has no separator, and the
    other fields are the split of what follows the first separator. *)
Lemma split_inv sep s : forall f fs,
  split sep s = f :: fs ->
  Forall (fun c => ascii_eqb c sep = false) f
  /\ match fs with
     | [] => s = f
     | _ :: _ => exists t, s = f ++ sep :: t /\ split sep t = fs
     end.
Proof.
  induction s as [| c r IH]; intros f fs E; cbn [split] in E.
  - injection E as <- <-. split; [constructor | reflexivity].
  - destruct (ascii_eqb c sep) eqn:Hc.
    + injection E as <- <-. split; [constructor |].
      apply Ascii.eqb_eq in Hc. subst c.
      destruct (split sep r) eqn:Er; [| exists r; split; [reflexivity | assumption]].
      destruct r; cbn in Er; [discriminate |].
      destruct (ascii_eqb a sep); [discriminate |].
      destruct (split sep r); discriminate.
    + destruct (split sep r) as [| f' fs'] eqn:Er.
      * injection E as <- <-.
        destruct r; cbn in Er; [discriminate |].
        destruct (ascii_eqb a sep); [discriminate |].
        destruct (split sep r); discriminate.
      * injection E as <- <-.
        destruct (IH _ _ eq_refl) as [Hf Hrest].
        split; [constructor; assumption |].
        destruct fs' as [| g gs]; [congruence |].
        destruct Hrest as (t & -> & Ht). exists t. split; [reflexivity | exact Ht].
Qed.

Lemma lstrip_decomp s :
  exists ws, s = ws ++ lstrip s /\ Forall (fun c => is_space c = true) ws.
Proof.
  induction s as [| c r (ws & E & Hws)].
  - exists []. split; [reflexivity | constructor].
  - cbn [lstrip]. destruct (is_space c) eqn:Hc.
    + exists (c :: ws). split; [cbn; congruence | constructor; assumption].
    + exists []. split; [reflexivity | constructor].
Qed.

Lemma strip_decomp s :
  exists ws ws', s = ws ++ strip s ++ ws'
                 /\ Forall (fun c => is_space c = true) ws
                 /\ Forall (fun c => is_space c = true) ws'.
Proof.
  destruct (lstrip_decomp s) as (ws & E & Hws).
  destruct (lstrip_decomp (rev (lstrip s))) as (ws' & E' & Hws').
  exists ws, (rev ws'). repeat split.
  - unfold strip, rstrip. rewrite <- rev_app_distr, <- E', rev_involutive. exact E.
  - exact Hws.
  - apply Forall_rev. exact Hws'.
Qed.

Lemma int_char_intro c :
  is_space c = true \/ is_digit c = true \/ ascii_eqb c "_" = true
  \/ ascii_eqb c "+" = true \/ ascii_eqb c "-" = true ->
  int_char c = true.
Proof.
  unfold int_char. intros H.
  destruct (is_space c), (is_digit c), (ascii_eqb c "_"), (ascii_eqb c "+"),
    (ascii_eqb c "-"); try reflexivity.
  destruct H as [H | [H | [H | [H | H]]]]; discriminate.
Qed.

Lemma scan_digits_chars s : forall acc b v,
  scan_digits s acc b = Some v -> Forall (fun c => int_char c = true) s.
Proof.
  induction s as [| c r IH]; intros acc b v E; [constructor |].
  cbn [scan_digits] in E.
  destruct (is_digit c) eqn:Hd.
  - constructor; [| eapply IH; exact E].
    apply int_char_intro. auto.
  - destruct (ascii_eqb c "_") eqn:Hu; [| discriminate].
    destruct b; [| discriminate].
    constructor; [| eapply IH; exact E].
    apply int_char_intro. auto.
Qed.

(** A text that [int] accepts is made of blanks, digits, underscores and
    signs only. *)
Lemma int_chars s v : int s = Some v -> Forall (fun c => int_char c = true) s.
Proof.
  intros E. destruct (strip_decomp s) as (ws & ws' & Es & Hws & Hws').
  assert (Forall (fun c => int_char c = true) (strip s)) as Hmid.
  { unfold int in E. destruct (strip s) as [| c r]; [constructor |].
    destruct (ascii_eqb c "-") eqn:Hm.
    - destruct (scan_digits r 0 false) as [u |] eqn:Er; [| discriminate].
      constructor; [| eapply scan_digits_chars; exact Er].
      apply int_char_intro. auto 6.
    - destruct (ascii_eqb c "+") eqn:Hp.
      + constructor; [| eapply scan_digits_chars; exact E].
        apply int_char_intro. auto 6.
      + eapply scan_digits_chars; exact E. }
  rewrite Es. apply Forall_app. split.
  - eapply Forall_impl; [exact Hws |]. cbn. intros c Hc.
    apply int_char_intro. auto.
  - apply Forall_app. split; [exact Hmid |].
    eapply Forall_impl; [exact Hws' |]. cbn. intros c Hc.
    apply int_char_intro. auto.
Qed.

Lemma int_no_sep sep s v :
  int_char sep = false -> int s = Some v ->
  Forall (fun c => ascii_eqb c sep = false) s.
Proof.
  intros Hsep E. eapply Forall_impl; [apply (int_chars s v E) |].
  cbn. intros c Hc. unfold ascii_eqb.
  destruct (Ascii.eqb_spec c sep) as [-> | _]; [congruence | reflexivity].
Qed.

(** The texts [parse_time] accepts are those made of four integer
    literals, [h:m:s.ms]. *)
Lemma parse_time_Some_iff time_str v :
  parse_time time_str = Some v <->
  exists h m s ms vh vm vs vms,
    list_ascii_of_string time_str = h ++ ":"%char :: m ++ ":"%char :: s ++ "."%char :: ms
    /\ int h = Some vh /\ int m = Some vm /\ int s = Some vs /\ int ms = Some vms
    /\ v = (vh * 3600 + vm * 60 + vs) * 1000 + vms.
Proof.
  unfold parse_time. split.
  - intros E.
    destruct (split ":" (list_ascii_of_string time_str))
      as [| h [| m [| rest [| ? ?]]]] eqn:Es; try discriminate.
    destruct (split "." rest) as [| s [| ms [| ? ?]]] eqn:Er; try discriminate.
    destruct (int h) as [vh |] eqn:Eh; [| discriminate].
    destruct (int m) as [vm |] eqn:Em; [| discriminate].
    destruct (int s) as [vs |] eqn:Esec; [| discriminate].
    destruct (int ms) as [vms |] eqn:Ems; [| discriminate].
    cbn in E. injection E as <-.
    apply split_inv in Es as [_ (t & Et & Es)].
    apply split_inv in Es as [_ (t' & -> & Es)].
    apply split_inv in Es as [_ ->].
    apply split_inv in Er as [_ (u & -> & Er)].
    apply split_inv in Er as [_ ->].
    exists h, m, s, ms, vh, vm, vs, vms. repeat split; assumption.
  - intros (h & m & s & ms & vh & vm & vs & vms & -> & Eh & Em & Es & Ems & ->).
    rewrite split_cons by (eapply int_no_sep; [| exact Eh]; reflexivity).
    rewrite split_cons by (eapply int_no_sep; [| exact Em]; reflexivity).
    rewrite split_none.
    2:{ apply Forall_app. split; [eapply int_no_sep; [| exact Es]; reflexivity |].
        constructor; [reflexivity |].
        eapply int_no_sep; [| exact Ems]; reflexivity. }
    rewrite split_cons by (eapply int_no_sep; [| exact Es]; reflexivity).
    rewrite split_none by (eapply int_no_sep; [| exact Ems]; reflexivity).
    rewrite Eh, Em, Es, Ems. reflexivity.
Qed.

(** A text of the canonical shape is four runs of digits. *)
Lemma canonical_shape_fields time_str :
  canonical_shape time_str = true ->
  exists h m s ms,
    list_ascii_of_string time_str = h ++ ":"%char :: m ++ ":"%char :: s ++ "."%char :: ms
    /\ all_digits h /\ (2 <= length h)%nat
    /\ all_digits m /\ length m = 2%nat
    /\ all_digits s /\ length s = 2%nat
    /\ all_digits ms /\ length ms = 3%nat.
Proof.
  unfold canonical_shape. intros H.
  destruct (span_digits (list_ascii_of_string time_str)) as [h rest] eqn:Esp.
  apply span_digits_spec in Esp as [E Hh].
  apply andb_true_iff in H as [Hlen H]. apply Nat.leb_le in Hlen.
  destruct rest as [| c1 [| m1 [| m2 [| c2 [| s1 [| s2 [| d [| k1 [| k2 [| k3 [| ? ?]]]]]]]]]]];
    try discriminate.
  repeat (apply andb_true_iff in H as [H ?]).
  repeat match goal with
         | Hc : ascii_eqb _ _ = true |- _ => apply Ascii.eqb_eq in Hc; subst
         end.
  exists h, [m1; m2], [s1; s2], [k1; k2; k3].
  split; [exact E |].
  repeat split; try assumption; repeat constructor; assumption.
Qed.

End ParseShape.

(** ** The split-point table *)

Section Table.

Lemma alter_fixed {A} (f : A -> A) (l : list A) (i : nat) :
  (forall x, l !! i = Some x -> f x = x) -> alter f i l = l.
Proof.
  intros H. apply list_eq. intros j. rewrite list_lookup_alter.
  destruct (decide (i = j)) as [-> |]; [| reflexivity].
  destruct (l !! j) as [x |] eqn:E; [| reflexivity].
  cbn. f_equal. apply H. reflexivity.
Qed.

Lemma set_end_time_same p : set_end_time (end_time p) p = p.
Proof. destruct p. reflexivity. Qed.

(** What [add_split_point] leaves in [split_points]: the list as it was
    and one more point, which starts where the last one ends. *)
Lemma add_split_point_points self current_time :
  split_points (add_split_point self current_time)
  = split_points self
    ++ [SplitPoint_init
          (match last (split_points self) with
           | None => Some 0
           | Some p => end_time p
           end) (Some current_time)].
Proof.
  unfold add_split_point. cbv zeta.
  destruct (1 <? _)%nat eqn:Hlen; [| reflexivity].
  cbn [update_table split_points]. apply alter_fixed. intros x Hx.
  destruct (last (split_points self)) as [p |] eqn:Hlast.
  - apply last_Some in Hlast as [init E]. rewrite E in Hx.
    rewrite !length_app in Hx. cbn [length] in Hx.
    replace (length init + 1 + 1 - 2)%nat with (length init + 0)%nat in Hx by lia.
    rewrite <- app_assoc, lookup_app_r in Hx by lia.
    replace (length init + 0 - length init)%nat with 0%nat in Hx by lia.
    cbn in Hx. injection Hx as <-. apply set_end_time_same.
  - apply last_None in Hlast. rewrite Hlast in Hlen. discriminate.
Qed.

Lemma add_split_point_displayed self current_time :
  displayed (add_split_point self current_time).
Proof.
  unfold add_split_point, displayed. cbv zeta.
  destruct (1 <? _)%nat; cbn [update_table rows split_points];
    rewrite length_fmap; reflexivity.
Qed.

End Table.

(** C1 (as the code has it): [add_split_point] on an empty table appends
    the single point from 0 to the given time; on a non-empty table it
    appends a point from the end of the last point to the given time, and
    the points that were there, the last one included, stay as they were. *)
Theorem add_split_point_appends (self : SplitPointsTable) (current_time : Z) :
  (split_points self = [] ->
   split_points (add_split_point self current_time)
   = [mkSplitPoint (Some 0) (Some current_time) true])
  /\ (forall init p,
        split_points self = init ++ [p] ->
        split_points (add_split_point self current_time)
        = init ++ [p; mkSplitPoint (end_time p) (Some current_time) true]).
Proof.
  split.
  - intros E. rewrite add_split_point_points, E. reflexivity.
  - intros init p E. rewrite add_split_point_points, E.
    rewrite last_snoc, <- app_assoc. reflexivity.
Qed.

Lemma add_split_point_appends_witness :
  let t := add_split_point SplitPointsTable_init 30000 in
  split_points t = [] ++ [mkSplitPoint (Some 0) (Some 30000) true]
  /\ split_points (add_split_point t 60000)
     = [] ++ [mkSplitPoint (Some 0) (Some 30000) true;
              mkSplitPoint (Some 30000) (Some 60000) true].
Proof.
  split; [reflexivity |].
  apply (proj2 (add_split_point_appends
                  (add_split_point SplitPointsTable_init 30000) 60000)).
  reflexivity.
Defined.

(** C1, counterexample: the second call does not move the end of the first
    point to the new time and does not leave the new point open-ended. *)
Lemma add_split_point_second_call :
  let t := add_split_point SplitPointsTable_init 30000 in
  split_points (add_split_point t 60000)
  = [mkSplitPoint (Some 0) (Some 30000) true;
     mkSplitPoint (Some 30000) (Some 60000) true]
  /\ split_points (add_split_point t 60000)
     <> [mkSplitPoint (Some 0) (Some 60000) true;
         mkSplitPoint (Some 60000) None true].
Proof. split; [reflexivity | discriminate]. Qed.

(** ** The gapless chain *)

Ltac lookups :=
    repeat match goal with
           | H : context [alter _ _ _ !! _] |- _ => rewrite list_lookup_alter in H
           end;
    repeat case_decide; try lia;
    repeat match goal with
           | H : _ <$> ?o = Some _ |- _ =>
               let E := fresh "E" in destruct o eqn:E; cbn in H; [| discriminate]
           end;
    simplify_eq; cbn;
    repeat match goal with
           | H0 : ?a = S ?j, E : context [_ !! ?a] |- _ => rewrite H0 in E
           | H0 : ?a = 0%nat, E : context [_ !! ?a] |- _ => rewrite H0 in E
           end.

Section Chain.

Lemma linked_gapless points : linked points -> gapless points.
Proof.
  intros H j p q e s Hp Hq He Hs.
  specialize (H j p q Hp Hq). congruence.
Qed.

Lemma linked_snoc points new :
  linked points ->
  (forall p, last points = Some p -> end_time p = start_time new) ->
  linked (points ++ [new]).
Proof.
  intros H Hlast j p q Hp Hq.
  destruct (decide (S j < length points)%nat) as [Hlt | Hge].
  - rewrite lookup_app_l in Hp, Hq by lia. eauto.
  - assert (S j < length (points ++ [new]))%nat as Hb
        by (apply lookup_lt_is_Some; eauto).
    rewrite length_app in Hb. cbn in Hb.
    assert (S j = length points) as Hj by lia.
    rewrite lookup_app_l in Hp by lia.
    rewrite lookup_app_r in Hq by lia.
    replace (S j - length points)%nat with 0%nat in Hq by lia.
    cbn in Hq. injection Hq as <-.
    apply Hlast. rewrite last_lookup.
    replace (pred (length points)) with j by lia. exact Hp.
Qed.

Lemma linked_edit_start points row v :
  linked points ->
  linked (if (0 <? row)%nat
          then alter (set_end_time (Some v)) (row - 1)%nat
                 (alter (set_start_time (Some v)) row points)
          else alter (set_start_time (Some v)) row points).
Proof.
  intros H j p q Hp Hq.
  destruct (0 <? row)%nat eqn:Hrow;
    [apply Nat.ltb_lt in Hrow | apply Nat.ltb_ge in Hrow];
    lookups; eauto.
Qed.

Lemma linked_edit_end points row v :
  linked points ->
  linked (if (row <? length points - 1)%nat
          then alter (set_start_time (Some v)) (row + 1)%nat
                 (alter (set_end_time (Some v)) row points)
          else alter (set_end_time (Some v)) row points).
Proof.
  intros H j p q Hp Hq.
  destruct (row <? length points - 1)%nat eqn:Hrow;
    [apply Nat.ltb_lt in Hrow | apply Nat.ltb_ge in Hrow];
    lookups; eauto.
  assert (S j < length points)%nat by (apply lookup_lt_is_Some; eauto). lia.
Qed.

Lemma linked_toggle points row checked :
  linked points -> linked (alter (set_selected checked) row points).
Proof. intros H j p q Hp Hq. lookups; eauto. Qed.

Lemma item_set_item_text self row column text :
  (row < length (rows self))%nat -> column = 1%nat \/ column = 2%nat ->
  item (set_item_text self row column text) row column = Some text.
Proof.
  intros Hrow Hcol. unfold item, set_item_text. cbn [rows].
  rewrite list_lookup_alter_eq.
  destruct (lookup_lt_is_Some_2 (rows self) row Hrow) as [r ->].
  destruct Hcol as [-> | ->]; reflexivity.
Qed.

(** The split points after an edit: as before, or changed as
    [cell_edited] does when the text parses. *)
Lemma edit_cell_points self row column text :
  split_points (fst (edit_cell self row column text)) = split_points self
  \/ exists v, parse_time text = Some v /\ (row < length (split_points self))%nat
       /\ ((column = 1%nat
            /\ split_points (fst (edit_cell self row column text))
               = if (0 <? row)%nat
                 then alter (set_end_time (Some v)) (row - 1)%nat
                        (alter (set_start_time (Some v)) row (split_points self))
                 else alter (set_start_time (Some v)) row (split_points self))
           \/ (column = 2%nat
               /\ split_points (fst (edit_cell self row column text))
                  = if (row <? length (split_points self) - 1)%nat
                    then alter (set_start_time (Some v)) (row + 1)%nat
                           (alter (set_end_time (Some v)) row (split_points self))
                    else alter (set_end_time (Some v)) row (split_points self))).
Proof.
  unfold edit_cell, cell_edited. cbv zeta.
  change (split_points (set_item_text self row column text)) with (split_points self).
  destruct (length (split_points self) <=? row)%nat eqn:Hrow; [left; reflexivity |].
  apply Nat.leb_gt in Hrow.
  destruct (column =? 1)%nat eqn:H1; destruct (column =? 2)%nat eqn:H2;
    cbn [orb negb]; try (left; reflexivity).
  all: destruct (item _ row column) as [time_str |] eqn:Hitem; [| left; reflexivity].
  all: assert (time_str = text) as ->.
  1,3,5: (assert (row < length (rows (set_item_text self row column text)))%nat as Hr
           by (apply lookup_lt_is_Some; unfold item in Hitem;
               destruct (rows _ !! row); [eauto | discriminate]);
         unfold set_item_text in Hr; cbn [rows] in Hr; rewrite length_alter in Hr;
         rewrite item_set_item_text in Hitem;
         [congruence | exact Hr |
          apply Nat.eqb_eq in H1 || apply Nat.eqb_eq in H2; auto]).
  all: destruct (parse_time text) as [v |] eqn:Hparse; [| left; reflexivity].
  all: right; exists v; split; [reflexivity |]; split; [exact Hrow |].
  - apply Nat.eqb_eq in H1, H2. lia.
  - left. apply Nat.eqb_eq in H1. split; [exact H1 | reflexivity].
  - right. apply Nat.eqb_eq in H2. split; [exact H2 | reflexivity].
Qed.

(** An edit of a time cell of a displayed row: the text is parsed and
    applied, or the display is drawn again from the unchanged points. *)
Lemma edit_cell_eq self row column text :
  displayed self -> (row < length (split_points self))%nat ->
  column = 1%nat \/ column = 2%nat ->
  edit_cell self row column text
  = match parse_time text with
    | Some v => (update_table (edited_points column row v (split_points self)), Applied)
    | None => (update_table (split_points self), ParseError)
    end.
Proof.
  intros Hd Hrow Hcol. unfold edit_cell, cell_edited. cbv zeta.
  change (split_points (set_item_text self row column text)) with (split_points self).
  destruct (Nat.leb_spec (length (split_points self)) row) as [Hle | _]; [lia |].
  rewrite item_set_item_text; [| rewrite Hd; exact Hrow | exact Hcol].
  unfold edited_points.
  destruct Hcol as [-> | ->]; cbn [Nat.eqb orb negb];
    destruct (parse_time text); reflexivity.
Qed.

Lemma apply_op_displayed self op : displayed self -> displayed (apply_op self op).
Proof.
  intros Hd. destruct op as [current_time | row column text | row checked];
    cbn [apply_op].
  - apply add_split_point_displayed.
  - unfold edit_cell, cell_edited. cbv zeta.
    assert (displayed (set_item_text self row column text)) as Hd'.
    { unfold displayed, set_item_text. cbn [rows split_points].
      rewrite length_alter. exact Hd. }
    destruct (_ || _); [exact Hd' |].
    destruct (item _ row column); [| exact Hd'].
    destruct (parse_time _); [destruct (column =? 1)%nat |]; cbn [fst];
      unfold displayed, update_table; cbn [rows split_points];
      apply length_fmap.
  - unfold toggle_selection. destruct (_ <? _)%nat; [| exact Hd].
    unfold displayed. cbn [rows split_points]. rewrite length_alter. exact Hd.
Qed.

Lemma apply_op_linked self op :
  linked (split_points self) -> linked (split_points (apply_op self op)).
Proof.
  intros H. destruct op as [current_time | row column text | row checked];
    cbn [apply_op].
  - rewrite add_split_point_points. apply linked_snoc; [exact H |].
    intros p ->. reflexivity.
  - destruct (edit_cell_points self row column text)
      as [-> | (v & _ & _ & [[_ ->] | [_ ->]])].
    + exact H.
    + apply linked_edit_start. exact H.
    + apply linked_edit_end. exact H.
  - unfold toggle_selection. destruct (_ <? _)%nat; [| exact H].
    cbn [split_points]. apply linked_toggle. exact H.
Qed.

Lemma apply_op_starts_at_0 self op :
  edits_first_start op = false ->
  starts_at_0 (split_points self) -> starts_at_0 (split_points (apply_op self op)).
Proof.
  intros Hop H. destruct op as [current_time | row column text | row checked];
    cbn [apply_op].
  - rewrite add_split_point_points. intros p Hp.
    destruct (split_points self) as [| p0 r] eqn:E.
    + cbn in Hp. injection Hp as <-. reflexivity.
    + cbn in Hp. apply H. exact Hp.
  - destruct (edit_cell_points self row column text)
      as [-> | (v & _ & Hrow & [[-> ->] | [_ ->]])]; [exact H | |].
    + destruct row as [| row]; [discriminate |].
      cbn [Nat.ltb Nat.leb]. intros p Hp. lookups; apply H; assumption.
    + intros p Hp.
      destruct (row <? length (split_points self) - 1)%nat; lookups;
        apply H; assumption.
  - unfold toggle_selection. destruct (_ <? _)%nat; [| exact H].
    cbn [split_points]. intros p Hp. lookups; apply H; assumption.
Qed.

Lemma foldl_apply_op_invariant (P : SplitPointsTable -> Prop) ops : forall self,
  (forall t op, In op ops -> P t -> P (apply_op t op)) ->
  P self -> P (foldl apply_op self ops).
Proof.
  induction ops as [| op ops IH]; intros self Hstep H0; [exact H0 |].
  cbn [foldl]. apply IH.
  - intros t op' Hin. apply Hstep. right. exact Hin.
  - apply Hstep; [left; reflexivity | exact H0].
Qed.

Lemma run_ops_linked ops :
  linked (split_points (run_ops ops)) /\ displayed (run_ops ops).
Proof.
  unfold run_ops.
  apply (foldl_apply_op_invariant
           (fun t => linked (split_points t) /\ displayed t)).
  - intros t op _ [H1 H2].
    split; [apply apply_op_linked | apply apply_op_displayed]; assumption.
  - split; [intros j p q Hp; discriminate | reflexivity].
Qed.

Lemma run_ops_starts_at_0 ops :
  Forall (fun op => edits_first_start op = false) ops ->
  starts_at_0 (split_points (run_ops ops)).
Proof.
  intros Hops. unfold run_ops.
  apply (foldl_apply_op_invariant (fun t => starts_at_0 (split_points t))).
  - intros t op Hin. apply apply_op_starts_at_0.
    rewrite Forall_forall in Hops. apply Hops. apply list_elem_of_In. exact Hin.
  - intros p Hp. discriminate.
Qed.

End Chain.

(** C7 (as the code has it): after any sequence of [add_split_point],
    cell edits and selection toggles from the empty table, two consecutive
    split points share their boundary whenever both sides are set; the
    first point starts at 0 as long as the start cell of row 0 has not been
    edited; an edit of the end of a row [j] that is not the last to [v]
    makes row [j+1] start at [v]; and an edit of the start of a row [j+1]
    to [v] makes row [j] end at [v]. *)
Theorem gapless_chain_preserved (ops : list table_op) :
  gapless (split_points (run_ops ops))
  /\ (Forall (fun op => edits_first_start op = false) ops ->
      starts_at_0 (split_points (run_ops ops)))
  /\ (forall j text v,
        (S j < length (split_points (run_ops ops)))%nat ->
        parse_time text = Some v ->
        start_time <$> split_points (fst (edit_cell (run_ops ops) j 2 text)) !! S j
        = Some (Some v))
  /\ (forall j text v,
        (S j < length (split_points (run_ops ops)))%nat ->
        parse_time text = Some v ->
        end_time <$> split_points (fst (edit_cell (run_ops ops) (S j) 1 text)) !! j
        = Some (Some v)).
Proof.
  destruct (run_ops_linked ops) as [Hlinked Hdisp].
  split; [apply linked_gapless; exact Hlinked |].
  split; [apply run_ops_starts_at_0 |].
  split.
  - intros j text v Hj Hparse.
    rewrite edit_cell_eq by (auto; lia). rewrite Hparse.
    cbn [fst update_table split_points]. unfold edited_points. cbn [Nat.eqb].
    destruct (Nat.ltb_spec j (length (split_points (run_ops ops)) - 1)) as [_ | Hge];
      [| lia].
    replace (j + 1)%nat with (S j) by lia.
    rewrite list_lookup_alter_eq, list_lookup_alter_ne by lia.
    destruct (lookup_lt_is_Some_2 (split_points (run_ops ops)) (S j) Hj) as [q ->].
    reflexivity.
  - intros j text v Hj Hparse.
    rewrite edit_cell_eq by (auto; lia). rewrite Hparse.
    cbn [fst update_table split_points]. unfold edited_points.
    cbn [Nat.eqb Nat.ltb Nat.leb].
    replace (S j - 1)%nat with j by lia.
    rewrite list_lookup_alter_eq, list_lookup_alter_ne by lia.
    assert (j < length (split_points (run_ops ops)))%nat as Hj' by lia.
    destruct (lookup_lt_is_Some_2 (split_points (run_ops ops)) j Hj') as [p ->].
    reflexivity.
Qed.

Lemma gapless_chain_preserved_witness :
  starts_at_0 (split_points (run_ops [AddPoint 30000; AddPoint 60000]))
  /\ start_time <$>
       split_points
         (fst (edit_cell (run_ops [AddPoint 30000; AddPoint 60000]) 0 2 "00:00:45.000"))
       !! 1%nat
     = Some (Some 45000)
  /\ end_time <$>
       split_points
         (fst (edit_cell (run_ops [AddPoint 30000; AddPoint 60000]) 1 1 "00:00:10.000"))
       !! 0%nat
     = Some (Some 10000).
Proof.
  destruct (gapless_chain_preserved [AddPoint 30000; AddPoint 60000])
    as (_ & H2 & H3 & H4).
  split; [apply H2; repeat constructor |].
  split; [apply H3; [cbn; lia | reflexivity] | apply H4; [cbn; lia | reflexivity]].
Defined.

(** C7, counterexample: a successful edit of the start cell of row 0 moves
    the start of the first point away from 0. *)
Lemma first_start_moved_by_edit :
  snd (edit_cell (run_ops [AddPoint 30000]) 0 1 "00:00:05.000") = Applied
  /\ ~ starts_at_0
        (split_points (run_ops [AddPoint 30000; EditCell 0 1 "00:00:05.000"])).
Proof.
  split; [reflexivity |].
  intros H.
  specialize (H (mkSplitPoint (Some 5000) (Some 30000) true) eq_refl).
  discriminate.
Qed.

(** C9: an edit whose text does not parse leaves every split point as it
    was (start, end and selection of every row); for a time cell of a
    displayed row the [ValueError] is caught and the table is drawn again
    from the unchanged points. *)
Theorem edit_parse_failure_leaves_points
        (self : SplitPointsTable) (row column : nat) (text : string) :
  parse_time text = None ->
  split_points (fst (edit_cell self row column text)) = split_points self
  /\ (displayed self -> (row < length (split_points self))%nat ->
      column = 1%nat \/ column = 2%nat ->
      edit_cell self row column text = (update_table (split_points self), ParseError)).
Proof.
  intros Hparse. split.
  - destruct (edit_cell_points self row column text) as [E | (v & Hv & _)];
      [exact E | congruence].
  - intros Hd Hrow Hcol. rewrite edit_cell_eq by assumption.
    rewrite Hparse. reflexivity.
Qed.

Lemma edit_parse_failure_leaves_points_witness :
  parse_time "00:45" = None
  /\ split_points (fst (edit_cell (run_ops [AddPoint 30000; AddPoint 60000]) 0 2 "00:45"))
     = split_points (run_ops [AddPoint 30000; AddPoint 60000])
  /\ snd (edit_cell (run_ops [AddPoint 30000; AddPoint 60000]) 0 2 "00:45") = ParseError.
Proof.
  split; [reflexivity |].
  destruct (edit_parse_failure_leaves_points
              (run_ops [AddPoint 30000; AddPoint 60000]) 0 2 "00:45" eq_refl)
    as [H1 H2].
  split; [exact H1 |].
  rewrite H2; [reflexivity | reflexivity | cbn; lia | right; reflexivity].
Defined.

(** ** [int()] and the integer literals *)

Section IntLiteral.
Import PyText PyTextFacts.

Lemma blank_is_space c : blank c = is_space c.
Proof.
  destruct c as [b0 b1 b2 b3 b4 b5 b6 b7].
  destruct b0, b1, b2, b3, b4, b5, b6, b7; reflexivity.
Qed.

Lemma decimal_digit_is_digit c : decimal_digit c = is_digit c.
Proof.
  destruct c as [b0 b1 b2 b3 b4 b5 b6 b7].
  destruct b0, b1, b2, b3, b4, b5, b6, b7; reflexivity.
Qed.

Lemma decimal_value_value g : decimal_value g = value g 0.
Proof. reflexivity. Qed.

Lemma digit_run_all_digits g : digit_run g <-> g <> [] /\ all_digits g.
Proof.
  unfold digit_run, all_digits. split; intros [Hne Hall]; (split; [exact Hne |]).
  - eapply Forall_impl; [exact Hall |]. intros c. cbv beta. intros Hc.
    rewrite <- decimal_digit_is_digit. exact Hc.
  - eapply Forall_impl; [exact Hall |]. intros c. cbv beta. intros Hc.
    rewrite decimal_digit_is_digit. exact Hc.
Qed.

Lemma value_cons c r acc : value (c :: r) acc = value r (acc * 10 + digit_val c).
Proof. reflexivity. Qed.

(** [scan_digits] reads runs of digits joined by single underscores. *)
Lemma scan_underscored groups : forall g acc,
  all_digits g -> Forall digit_run groups ->
  scan_digits (underscored g groups) acc true
  = Some (value (g ++ concat groups) acc).
Proof.
  induction groups as [| h hs IH]; intros g acc Hg Hgroups.
  - unfold underscored. cbn [fmap list_fmap concat]. rewrite !app_nil_r.
    apply scan_digits_all. exact Hg.
  - inversion Hgroups as [| ? ? Hh Hhs]; subst.
    apply digit_run_all_digits in Hh as [Hne Hh].
    revert acc. induction Hg as [| c g Hc _ IHg]; intros acc.
    + destruct h as [| d h']; [contradiction |].
      inversion Hh as [| ? ? Hd Hh']; subst.
      unfold underscored. cbn [fmap list_fmap concat app scan_digits].
      change (is_digit "_") with false. cbn [ascii_eqb]. rewrite Ascii.eqb_refl.
      rewrite Hd.
      change (h' ++ concat ((fun h0 => "_"%char :: h0) <$> hs))
        with (underscored h' hs).
      rewrite (IH h' _ Hh' Hhs). reflexivity.
    + unfold underscored in *. cbn [app scan_digits]. rewrite Hc.
      rewrite IHg. reflexivity.
Qed.

Lemma scan_underscored_start g groups acc :
  Forall digit_run (g :: groups) ->
  scan_digits (underscored g groups) acc false
  = Some (value (g ++ concat groups) acc).
Proof.
  intros Hall. inversion Hall as [| ? ? Hg Hgroups]; subst.
  apply digit_run_all_digits in Hg as [Hne Hg].
  destruct g as [| c g']; [contradiction |].
  inversion Hg as [| ? ? Hc Hg']; subst.
  unfold underscored. cbn [app scan_digits]. rewrite Hc.
  change (g' ++ concat ((fun h => "_"%char :: h) <$> groups))
    with (underscored g' groups).
  rewrite (scan_underscored groups g' _ Hg' Hgroups). reflexivity.
Qed.

(** What [scan_digits] accepts is of that form. *)
Lemma scan_digits_inv s : forall acc v,
  (scan_digits s acc true = Some v ->
   exists g groups,
     s = underscored g groups /\ all_digits g /\ Forall digit_run groups
     /\ v = value (g ++ concat groups) acc)
  /\ (scan_digits s acc false = Some v ->
      exists g groups,
        s = underscored g groups /\ Forall digit_run (g :: groups)
        /\ v = value (g ++ concat groups) acc).
Proof.
  induction s as [| c r IH]; intros acc v.
  - split; cbn [scan_digits]; [| discriminate].
    intros E. injection E as <-. exists [], []. repeat split; constructor.
  - cbn [scan_digits]. destruct (is_digit c) eqn:Hc.
    + assert (scan_digits r (acc * 10 + digit_val c) true = Some v ->
              exists g groups,
                c :: r = underscored g groups /\ all_digits g /\ g <> []
                /\ Forall digit_run groups
                /\ v = value (g ++ concat groups) acc) as Hstep.
      { intros E. destruct (proj1 (IH _ _) E) as (g & groups & -> & Hg & Hgs & ->).
        exists (c :: g), groups. repeat split.
        - constructor; assumption.
        - discriminate.
        - exact Hgs. }
      split; intros E; destruct (Hstep E) as (g & groups & Es & Hg & Hne & Hgs & Hv);
        exists g, groups.
      * repeat split; assumption.
      * split; [exact Es |]. split; [| exact Hv].
        constructor; [apply digit_run_all_digits; split; assumption | exact Hgs].
    + destruct (ascii_eqb c "_") eqn:Hu; [| split; discriminate].
      apply Ascii.eqb_eq in Hu. subst c.
      split; [| discriminate].
      intros E. destruct (proj2 (IH _ _) E) as (g & groups & -> & Hall & ->).
      exists [], (g :: groups). repeat split; [constructor | exact Hall].
Qed.

Lemma lstrip_blanks ws s :
  Forall (fun c => blank c = true) ws -> lstrip (ws ++ s) = lstrip s.
Proof.
  induction 1 as [| c ws Hc _ IH]; [reflexivity |].
  cbn [app lstrip]. rewrite <- blank_is_space, Hc. exact IH.
Qed.

Lemma lstrip_head c r : is_space c = false -> lstrip (c :: r) = c :: r.
Proof. intros H. cbn [lstrip]. rewrite H. reflexivity. Qed.

(** [strip] drops the blanks around a text that neither starts nor ends
    with one. *)
Lemma strip_around ws1 x ws2 c r d :
  Forall (fun c => blank c = true) ws1 -> Forall (fun c => blank c = true) ws2 ->
  x = c :: r -> last x = Some d -> is_space c = false -> is_space d = false ->
  strip (ws1 ++ x ++ ws2) = x.
Proof.
  intros H1 H2 Ex Hlast Hc Hd. unfold strip, rstrip.
  rewrite (lstrip_blanks ws1 _ H1). rewrite Ex at 1. cbn [app].
  rewrite (lstrip_head c _ Hc).
  change (c :: r ++ ws2) with ((c :: r) ++ ws2). rewrite <- Ex.
  rewrite rev_app_distr, (lstrip_blanks (rev ws2)) by (apply Forall_rev; exact H2).
  apply last_Some in Hlast as [init E]. rewrite E at 1. rewrite rev_app_distr.
  cbn [rev app]. rewrite (lstrip_head d _ Hd).
  change (d :: rev init) with (rev [d] ++ rev init).
  rewrite <- rev_app_distr, rev_involutive. symmetry. exact E.
Qed.

Lemma last_underscored g groups :
  Forall digit_run (g :: groups) ->
  exists d, last (underscored g groups) = Some d /\ is_digit d = true.
Proof.
  revert g. induction groups as [| h hs IH]; intros g Hall;
    inversion Hall as [| ? ? Hg Hgs]; subst.
  - apply digit_run_all_digits in Hg as [Hne Hg].
    unfold underscored. cbn [fmap list_fmap concat]. rewrite app_nil_r.
    destruct (last g) as [d |] eqn:Hl; [| apply last_None in Hl; contradiction].
    exists d. split; [reflexivity |].
    apply last_Some in Hl as [init ->]. apply Forall_app in Hg as [_ Hg].
    inversion Hg; assumption.
  - destruct (IH h Hgs) as (d & Hl & Hd). exists d. split; [| exact Hd].
    unfold underscored in *. cbn [fmap list_fmap concat].
    rewrite last_app. cbn [app]. rewrite last_cons, Hl. reflexivity.
Qed.

Lemma head_underscored g groups :
  Forall digit_run (g :: groups) ->
  exists c r, underscored g groups = c :: r /\ is_digit c = true.
Proof.
  intros Hall. inversion Hall as [| ? ? Hg _]; subst.
  apply digit_run_all_digits in Hg as [Hne Hg].
  destruct g as [| c g']; [contradiction |].
  inversion Hg; subst. exists c. eexists. split; [reflexivity | assumption].
Qed.

(** [int] accepts exactly the integer literals, with their values. *)
Lemma int_iff_literal s v : int s = Some v <-> int_literal s v.
Proof.
  split.
  - intros E. destruct (strip_decomp s) as (ws1 & ws2 & Es & H1 & H2).
    assert (forall ws, Forall (fun c => is_space c = true) ws ->
                       Forall (fun c => blank c = true) ws) as Hb
        by (intros ws H; eapply Forall_impl; [exact H |]; intros c; cbv beta;
            intros Hc; rewrite blank_is_space; exact Hc).
    unfold int in E. destruct (strip s) as [| c r] eqn:Estrip; [discriminate |].
    destruct (ascii_eqb c "-") eqn:Hm.
    + apply Ascii.eqb_eq in Hm. subst c.
      destruct (scan_digits r 0 false) as [u |] eqn:Er; [| discriminate].
      cbn in E. injection E as <-.
      destruct (proj2 (scan_digits_inv r 0 u) Er) as (g & groups & -> & Hall & ->).
      exists ws1, ["-"%char], g, groups, ws2.
      split; [exact Es |]. split; [auto |]. split; [auto |]. split; [exact Hall |].
      right. split; reflexivity.
    + destruct (ascii_eqb c "+") eqn:Hp.
      * apply Ascii.eqb_eq in Hp. subst c.
        destruct (proj2 (scan_digits_inv r 0 v) E) as (g & groups & -> & Hall & ->).
        exists ws1, ["+"%char], g, groups, ws2.
        split; [exact Es |]. split; [auto |]. split; [auto |]. split; [exact Hall |].
        left. split; [right |]; reflexivity.
      * destruct (proj2 (scan_digits_inv (c :: r) 0 v) E)
          as (g & groups & Eb & Hall & ->).
        exists ws1, [], g, groups, ws2. rewrite <- Eb.
        split; [exact Es |]. split; [auto |]. split; [auto |]. split; [exact Hall |].
        left. split; [left |]; reflexivity.
  - intros (ws1 & sign & g & groups & ws2 & -> & H1 & H2 & Hall & Hsign).
    destruct (head_underscored g groups Hall) as (c & r & Eb & Hc).
    destruct (last_underscored g groups Hall) as (d & Hl & Hd).
    pose proof (scan_underscored_start g groups 0 Hall) as Hscan.
    unfold int. destruct Hsign as [[[-> | ->] ->] | [-> ->]].
    + cbn [app].
      rewrite (strip_around ws1 _ ws2 c r d H1 H2 Eb Hl
                 (is_digit_not_space _ Hc) (is_digit_not_space _ Hd)).
      rewrite Eb in *.
      rewrite (is_digit_neq c "-" Hc eq_refl), (is_digit_neq c "+" Hc eq_refl).
      exact Hscan.
    + change (["+"%char] ++ underscored g groups ++ ws2)
        with ((["+"%char] ++ underscored g groups) ++ ws2).
      rewrite (strip_around ws1 (["+"%char] ++ underscored g groups) ws2
                 "+" (underscored g groups) d H1 H2 eq_refl).
      * cbn. exact Hscan.
      * cbn [app]. rewrite Eb. rewrite Eb in Hl. rewrite last_cons, Hl. reflexivity.
      * reflexivity.
      * apply is_digit_not_space. exact Hd.
    + change (["-"%char] ++ underscored g groups ++ ws2)
        with ((["-"%char] ++ underscored g groups) ++ ws2).
      rewrite (strip_around ws1 (["-"%char] ++ underscored g groups) ws2
                 "-" (underscored g groups) d H1 H2 eq_refl).
      * cbn. rewrite Hscan. reflexivity.
      * cbn [app]. rewrite Eb. rewrite Eb in Hl. rewrite last_cons, Hl. reflexivity.
      * reflexivity.
      * apply is_digit_not_space. exact Hd.
Qed.

Lemma parse_time_iff_literal time_str v :
  parse_time time_str = Some v <-> time_literal time_str v.
Proof.
  rewrite parse_time_Some_iff. unfold time_literal.
  split; intros (h & m & s & ms & vh & vm & vs & vms & E & Hh & Hm & Hs & Hms & Hv);
    exists h, m, s, ms, vh, vm, vs, vms;
    (split; [exact E |]);
    repeat (split; [first [apply int_iff_literal; assumption
                          | apply int_iff_literal; assumption] |]);
    exact Hv.
Qed.

Lemma ascii_text_check text :
  forallb (fun c => (nat_of_ascii c <? 128)%nat) (list_ascii_of_string text) = true ->
  ascii_text text.
Proof.
  intros H. unfold ascii_text. apply Forall_forall. intros c Hc.
  rewrite forallb_forall in H. apply list_elem_of_In in Hc.
  apply Nat.ltb_lt. apply H. exact Hc.
Qed.

End IntLiteral.

(** C8 (as the code has it): [parse_time] accepts every text of the
    canonical shape [HH:MM:SS.mmm] and gives a non-negative number of
    milliseconds for it, but it accepts more than that shape: every text
    [h:m:s.ms] whose four fields are integer literals (blanks, at most one
    sign, runs of digits with one underscore between two runs, blanks),
    with the value [(h * 3600 + m * 60 + s) * 1000 + ms], which a minus sign
    can make negative.  Among the texts of ASCII characters these are the
    only ones it accepts: every other one is a [ValueError]. *)
Theorem parse_time_accepts :
  (forall time_str,
      canonical_shape time_str = true ->
      exists v, parse_time time_str = Some v /\ 0 <= v)
  /\ (forall time_str v, time_literal time_str v -> parse_time time_str = Some v)
  /\ (forall time_str,
        ascii_text time_str ->
        forall v, parse_time time_str = Some v -> time_literal time_str v)
  /\ (forall time_str,
        ascii_text time_str ->
        (forall v, ~ time_literal time_str v) -> parse_time time_str = None)
  /\ (exists time_str v,
        ascii_text time_str /\ parse_time time_str = Some v /\ v < 0).
Proof.
  split; [| split; [| split; [| split]]].
  - intros time_str Hc.
    destruct (canonical_shape_fields time_str Hc)
      as (h & m & s & ms & E & Hh & Lh & Hm & Lm & Hs & Ls & Hms & Lms).
    assert (forall l : PyText.chars, (0 < length l)%nat -> l <> []) as Hne
        by (intros [| ? ?] Hl; [cbn in Hl; lia | discriminate]).
    rewrite <- (string_of_list_ascii_of_string time_str), E.
    rewrite parse_time_digit_fields; try assumption; try (apply Hne; lia).
    eexists. split; [reflexivity |].
    pose proof (value_nonneg h 0 Hh ltac:(lia)).
    pose proof (value_nonneg m 0 Hm ltac:(lia)).
    pose proof (value_nonneg s 0 Hs ltac:(lia)).
    pose proof (value_nonneg ms 0 Hms ltac:(lia)).
    lia.
  - intros time_str v H. apply parse_time_iff_literal. exact H.
  - intros time_str _ v H. apply parse_time_iff_literal. exact H.
  - intros time_str _ Hnone.
    destruct (parse_time time_str) as [v |] eqn:E; [| reflexivity].
    apply parse_time_iff_literal in E. destruct (Hnone v E).
  - exists "-1:00:00.000"%string, (-3600000).
    split; [| split; [reflexivity | lia]].
    apply ascii_text_check. reflexivity.
Qed.

Lemma parse_time_accepts_witness :
  (canonical_shape "01:02:03.004" = true
   /\ exists v, parse_time "01:02:03.004" = Some v /\ 0 <= v)
  /\ (ascii_text "1:2:3.4" /\ time_literal "1:2:3.4" 3723004)
  /\ (ascii_text "01:02:03" /\ parse_time "01:02:03" = None).
Proof.
  destruct parse_time_accepts as (H1 & H2 & H3 & H4 & _).
  pose proof ascii_text_check as Hascii.
  split; [| split].
  - split; [reflexivity | apply (H1 "01:02:03.004"%string); reflexivity].
  - split; [apply Hascii; reflexivity |].
    apply (H3 "1:2:3.4"%string); [apply Hascii; reflexivity | reflexivity].
  - split; [apply Hascii; reflexivity |].
    apply (H4 "01:02:03"%string); [apply Hascii; reflexivity |].
    intros v Hv. apply (H2 "01:02:03"%string) in Hv. discriminate.
Defined.

(** C8, counterexample: a text that is not of the canonical shape is
    accepted. *)
Lemma non_canonical_text_accepted :
  canonical_shape "1:2:3.4" = false /\ parse_time "1:2:3.4" = Some 3723004.
Proof. split; reflexivity. Qed.

(** A signed field is accepted too, and the value is then negative. *)
Example parse_time_negative : parse_time "-1:00:00.000" = Some (-3600000).
Proof. reflexivity. Qed.

(** ** The export driver *)

Section DriverFacts.
Variable mp : MoviePy.

Lemma bind_eq {A B} (m : M A) (k : A -> M B) (w : world) :
  (m ≫= k) w
  = match m w with
    | (w', Ok a) => k a w'
    | (w', Raise e) => (w', Raise e)
    end.
Proof. reflexivity. Qed.

Lemma read_time_ok field point w p ms :
  objects w !! point = Some p -> field p = Some ms ->
  read_time field point w = (w, Ok ms).
Proof. intros Hp Hf. unfold read_time. rewrite Hp. cbn. rewrite Hf. reflexivity. Qed.

Lemma point_times_Some points point s e :
  point_times points point = Some (s, e) ->
  exists p, points !! point = Some p /\ start_time p = Some s /\ end_time p = Some e.
Proof.
  unfold point_times. intros H.
  destruct (points !! point) as [p |]; [| discriminate]. cbn in H.
  destruct (start_time p) as [s' |] eqn:Hs; [| discriminate]. cbn in H.
  destruct (end_time p) as [e' |] eqn:He; [| discriminate]. cbn in H.
  injection H as <- <-. exists p. auto.
Qed.

(** One turn of the loop when the encoder returns. *)
Lemma process_point_ok out_dir base_name total i point w s e :
  point_times (objects w) point = Some (s, e) ->
  write_segment mp i s e (path_join out_dir (output_filename base_name i)) = None ->
  process_point mp out_dir base_name total i point w
  = ({| objects := objects w;
        events := events w ++ segment_events out_dir base_name total i (s, e);
        files := files w ++ [path_join out_dir (output_filename base_name i)] |},
     Ok ()).
Proof.
  intros Ht Hw. apply point_times_Some in Ht as (p & Hp & Hs & He).
  unfold process_point. rewrite bind_eq, (read_time_ok _ _ _ _ _ Hp Hs).
  rewrite bind_eq, (read_time_ok _ _ _ _ _ Hp He).
  cbv zeta. unfold emit, write_videofile, log, add_file.
  rewrite !bind_eq. cbn [objects events files]. rewrite Hw.
  cbn [objects events files]. rewrite <- !app_assoc. reflexivity.
Qed.

(** One turn of the loop when the encoder raises. *)
Lemma process_point_raise out_dir base_name total i point w s e message :
  point_times (objects w) point = Some (s, e) ->
  write_segment mp i s e (path_join out_dir (output_filename base_name i))
  = Some message ->
  process_point mp out_dir base_name total i point w
  = ({| objects := objects w;
        events := events w ++ segment_events out_dir base_name total i (s, e);
        files := files w |},
     Raise message).
Proof.
  intros Ht Hw. apply point_times_Some in Ht as (p & Hp & Hs & He).
  unfold process_point. rewrite bind_eq, (read_time_ok _ _ _ _ _ Hp Hs).
  rewrite bind_eq, (read_time_ok _ _ _ _ _ Hp He).
  cbv zeta. unfold emit, write_videofile, log, raise.
  rewrite !bind_eq. cbn [objects events files]. rewrite Hw.
  cbn [objects events files]. rewrite <- !app_assoc. reflexivity.
Qed.

(** A turn of the loop changes no object, whatever the encoder does. *)
Lemma process_point_objects out_dir base_name total i point w :
  objects (fst (process_point mp out_dir base_name total i point w)) = objects w.
Proof.
  unfold process_point, read_time, emit, write_videofile, log, add_file, raise.
  rewrite bind_eq.
  destruct (start_time <$> objects w !! point) as [[s |] |]; try reflexivity.
  rewrite bind_eq.
  destruct (end_time <$> objects w !! point) as [[e |] |]; try reflexivity.
  cbv zeta. rewrite !bind_eq. cbn [objects events files].
  destruct (write_segment mp i s e _); reflexivity.
Qed.

Lemma for_enumerate_objects out_dir base_name total split_points : forall i w,
  objects (fst (for_enumerate i split_points
                  (process_point mp out_dir base_name total) w))
  = objects w.
Proof.
  induction split_points as [| point r IH]; intros i w; [reflexivity |].
  cbn [for_enumerate]. rewrite bind_eq.
  pose proof (process_point_objects out_dir base_name total i point w) as Hp.
  destruct (process_point mp out_dir base_name total i point w) as [w' [[] | e]];
    cbn [fst] in Hp |- *.
  - rewrite IH. exact Hp.
  - exact Hp.
Qed.

(** The loop when the encoder returns for every point. *)
Lemma for_enumerate_ok out_dir base_name total split_points : forall i w,
  (forall k point,
      split_points !! k = Some point ->
      exists s e,
        point_times (objects w) point = Some (s, e)
        /\ write_segment mp (i + k) s e
             (path_join out_dir (output_filename base_name (i + k))) = None) ->
  for_enumerate i split_points (process_point mp out_dir base_name total) w
  = ({| objects := objects w;
        events := events w
                  ++ loop_events (objects w) out_dir base_name total i split_points;
        files := files w ++ loop_files out_dir base_name i (length split_points) |},
     Ok ()).
Proof.
  induction split_points as [| point r IH]; intros i w H.
  - cbn. unfold ret. rewrite !app_nil_r. destruct w; reflexivity.
  - cbn [for_enumerate]. rewrite bind_eq.
    destruct (H 0%nat point eq_refl) as (s & e & Ht & Hw).
    rewrite Nat.add_0_r in Hw.
    rewrite (process_point_ok _ _ _ _ _ _ s e Ht Hw).
    rewrite IH.
    + cbn [objects events files loop_events length]. rewrite Ht.
      unfold loop_files. cbn [seq fmap list_fmap].
      rewrite <- !app_assoc. reflexivity.
    + intros k point' Hk. cbn [objects].
      destruct (H (S k) point' Hk) as (s' & e' & Ht' & Hw').
      replace (S i + k)%nat with (i + S k)%nat by lia. eauto.
Qed.

(** The loop when the encoder raises at the point number [k] and returns
    for the points before it. *)
Lemma for_enumerate_raise out_dir base_name total message split_points :
  forall k i w point s e,
  split_points !! k = Some point ->
  point_times (objects w) point = Some (s, e) ->
  write_segment mp (i + k) s e
    (path_join out_dir (output_filename base_name (i + k))) = Some message ->
  (forall j point',
      (j < k)%nat -> split_points !! j = Some point' ->
      exists s' e',
        point_times (objects w) point' = Some (s', e')
        /\ write_segment mp (i + j) s' e'
             (path_join out_dir (output_filename base_name (i + j))) = None) ->
  for_enumerate i split_points (process_point mp out_dir base_name total) w
  = ({| objects := objects w;
        events := events w
                  ++ loop_events (objects w) out_dir base_name total i
                       (take (S k) split_points);
        files := files w ++ loop_files out_dir base_name i k |},
     Raise message).
Proof.
  induction split_points as [| p0 r IH]; intros k i w point s e Hk Ht Hw Hbefore;
    [discriminate |].
  cbn [for_enumerate]. rewrite bind_eq.
  destruct k as [| k].
  - cbn in Hk. injection Hk as ->. rewrite Nat.add_0_r in Hw.
    rewrite (process_point_raise _ _ _ _ _ _ s e message Ht Hw).
    cbn [take loop_events]. rewrite Ht, !app_nil_r. reflexivity.
  - destruct (Hbefore 0%nat p0 ltac:(lia) eq_refl) as (s0 & e0 & Ht0 & Hw0).
    rewrite Nat.add_0_r in Hw0.
    rewrite (process_point_ok _ _ _ _ _ _ s0 e0 Ht0 Hw0).
    rewrite (IH k (S i) _ point s e).
    + cbn [objects events files take loop_events]. rewrite Ht0.
      unfold loop_files. cbn [seq fmap list_fmap].
      rewrite <- !app_assoc. reflexivity.
    + exact Hk.
    + exact Ht.
    + replace (S i + k)%nat with (i + S k)%nat by lia. exact Hw.
    + intros j point' Hj Hl. cbn [objects].
      destruct (Hbefore (S j) point' ltac:(lia) Hl) as (s' & e' & Ht' & Hw').
      replace (S i + j)%nat with (i + S j)%nat by lia. eauto.
Qed.

Lemma resolve_last_end_eq video split_points w :
  resolve_last_end mp video split_points w
  = ({| objects := resolved (int_of mp (times_1000 mp (clip_duration video)))
                     split_points (objects w);
        events := events w;
        files := files w |},
     Ok ()).
Proof.
  unfold resolve_last_end, resolved.
  destruct (last split_points) as [point |]; [| destruct w; reflexivity].
  rewrite bind_eq. unfold get_objects.
  destruct (end_time <$> objects w !! point) as [[e |] |];
    try (destruct w; reflexivity).
Qed.

Lemma truthy_Some path : path <> ""%string -> truthy (Some path) = true.
Proof.
  intros H. unfold truthy. destruct (String.eqb_spec path ""); [contradiction | reflexivity].
Qed.

(** A configured export of a non-empty selection opens the video,
    resolves the open end and walks the points; an exception is
    reported by [error_occurred]. *)
Lemma split_video_configured self path out_dir split_points video w :
  configured self path out_dir -> split_points <> [] ->
  open_clip mp path = inr video ->
  let d := int_of mp (times_1000 mp (clip_duration video)) in
  let w1 := {| objects := resolved d split_points (objects w);
               events := events w ++ [Call (VideoFileClip path)];
               files := files w |} in
  split_video mp self split_points w
  = match for_enumerate 0 split_points
            (process_point mp out_dir (base_name_of path) (length split_points)) w1 with
    | (w2, Ok _) =>
        ({| objects := objects w2;
            events := events w2
                      ++ [Call close;
                          Emit (progress_updated (length split_points)
                                  (length split_points));
                          Emit splitting_completed];
            files := files w2 |}, Ok ())
    | (w2, Raise e) =>
        ({| objects := objects w2;
            events := events w2
                      ++ [Emit (error_occurred ("Error splitting video: " ++ e))];
            files := files w2 |}, Ok ())
    end.
Proof.
  intros (Hp & Ho & Hpne & Hone) Hne Hopen. cbv zeta.
  unfold split_video. rewrite Hp, Ho, !truthy_Some by assumption.
  cbn [negb orb default].
  destruct split_points as [| p0 r]; [contradiction |].
  unfold try_except. cbv zeta.
  rewrite bind_eq. unfold open_video. rewrite bind_eq. unfold log at 1.
  unfold id. rewrite Hopen. unfold ret at 1.
  rewrite bind_eq, resolve_last_end_eq. cbn [objects events files].
  rewrite bind_eq.
  destruct (for_enumerate 0 (p0 :: r) _ _) as [w2 [[] | e]]; [| reflexivity].
  unfold close_video, emit, log. rewrite !bind_eq. cbn [objects events files].
  rewrite <- !app_assoc. reflexivity.
Qed.

(** The export without a source path or an output directory, or with no
    point: one [error_occurred] and nothing else. *)
Lemma split_video_unconfigured self split_points w :
  truthy (video_path self) = false \/ truthy (output_dir self) = false ->
  split_video mp self split_points w
  = ({| objects := objects w;
        events := events w
                  ++ [Emit (error_occurred "Video path or output directory not set")];
        files := files w |}, Ok ()).
Proof.
  intros H. unfold split_video.
  destruct (truthy (video_path self)), (truthy (output_dir self));
    try reflexivity.
  destruct H; discriminate.
Qed.

Lemma split_video_no_points self w :
  truthy (video_path self) = true -> truthy (output_dir self) = true ->
  split_video mp self [] w
  = ({| objects := objects w;
        events := events w ++ [Emit (error_occurred "No split points defined")];
        files := files w |}, Ok ()).
Proof. intros H1 H2. unfold split_video. rewrite H1, H2. reflexivity. Qed.

End DriverFacts.

(** *** The signals and the calls in the events of the loop *)

Section Projections.

Lemma signals_of_app evs evs' :
  signals_of (evs ++ evs') = signals_of evs ++ signals_of evs'.
Proof. apply omap_app. Qed.

Lemma calls_of_app evs evs' : calls_of (evs ++ evs') = calls_of evs ++ calls_of evs'.
Proof. apply omap_app. Qed.

Lemma signals_of_loop_events points out_dir base_name total split_points : forall i,
  Forall (fun point => is_Some (point_times points point)) split_points ->
  signals_of (loop_events points out_dir base_name total i split_points)
  = flat_map (segment_signals base_name total) (seq i (length split_points)).
Proof.
  induction split_points as [| point r IH]; intros i Hall; [reflexivity |].
  inversion Hall as [| ? ? [times Ht] Hr]; subst.
  cbn [loop_events length seq flat_map]. rewrite Ht, signals_of_app, IH by exact Hr.
  reflexivity.
Qed.

Lemma calls_of_loop_events points out_dir base_name total split_points : forall i,
  calls_of (loop_events points out_dir base_name total i split_points)
  = loop_calls points out_dir base_name i split_points.
Proof.
  induction split_points as [| point r IH]; intros i; [reflexivity |].
  cbn [loop_events loop_calls]. rewrite calls_of_app, IH.
  destruct (point_times points point); reflexivity.
Qed.

(** The signals of the segments [0], ..., [m - 1]. *)
Lemma in_segment_signals base_name total s : forall m i,
  In s (flat_map (segment_signals base_name total) (seq i m)) ->
  exists k, (i <= k < i + m)%nat
            /\ (s = segment_started (k + 1) (output_filename base_name k)
                \/ s = progress_updated k total).
Proof.
  induction m as [| m IH]; intros i H; [contradiction |].
  cbn [seq flat_map] in H. apply in_app_or in H as [H | H].
  - exists i. split; [lia |].
    destruct H as [<- | [<- | []]]; auto.
  - destruct (IH (S i) H) as (k & Hk & Hs). exists k. split; [lia | exact Hs].
Qed.

End Projections.

(** [get_selected_points] gives the selected rows, and only them, in the
    order of the table. *)
Lemma selected_from_elem points : forall i r,
  In r (selected_from i points)
  <-> (i <= r)%nat /\ exists p, points !! (r - i)%nat = Some p /\ selected p = true.
Proof.
  induction points as [| p0 rest IH]; intros i r; cbn [selected_from].
  - split; [contradiction | intros (_ & p & Hp & _); discriminate].
  - assert (In r (selected_from (S i) rest)
            <-> (i < r)%nat /\ exists p, (p0 :: rest) !! (r - i)%nat = Some p
                                         /\ selected p = true) as Hrest.
    { rewrite IH. split.
      - intros (Hle & p & Hp & Hsel). split; [lia |]. exists p. split; [| exact Hsel].
        replace (r - i)%nat with (S (r - S i)) by lia. exact Hp.
      - intros (Hlt & p & Hp & Hsel). split; [lia |]. exists p. split; [| exact Hsel].
        replace (r - i)%nat with (S (r - S i)) in Hp by lia. exact Hp. }
    destruct (selected p0) eqn:Hsel0; cbn [In]; rewrite ?Hrest; split.
    + intros [<- | (Hlt & H)]; [| split; [lia | exact H]].
      split; [lia |]. exists p0. rewrite Nat.sub_diag. auto.
    + intros (Hle & p & Hp & Hsel).
      destruct (decide (i = r)) as [-> | Hne]; [left; reflexivity | right].
      split; [lia |]. eauto.
    + intros (Hlt & H). split; [lia | exact H].
    + intros (Hle & p & Hp & Hsel).
      destruct (decide (i = r)) as [-> | Hne]; [| split; [lia | eauto]].
      rewrite Nat.sub_diag in Hp. cbn in Hp. congruence.
Qed.

Lemma selected_from_sorted points : forall i,
  StronglySorted lt (selected_from i points).
Proof.
  induction points as [| p0 rest IH]; intros i; cbn [selected_from];
    [constructor |].
  destruct (selected p0); [| apply IH].
  constructor; [apply IH |].
  apply Forall_forall. intros r Hr. apply list_elem_of_In in Hr.
  apply selected_from_elem in Hr as [Hle _]. lia.
Qed.

(** X3: [get_selected_points] gives exactly the rows whose point is
    selected, each once and in the order of the table. *)
Lemma get_selected_points_order (self : SplitPointsTable) :
  StronglySorted lt (get_selected_points self)
  /\ forall r, In r (get_selected_points self)
               <-> exists p, split_points self !! r = Some p /\ selected p = true.
Proof.
  split; [apply selected_from_sorted |].
  intros r. unfold get_selected_points. rewrite selected_from_elem, Nat.sub_0_r.
  split; [intros [_ H]; exact H | intros H; split; [lia | exact H]].
Qed.

(** C5: a configured export of [n] points for which the encoder returns
    walks the points in the order of the list it is given, names the
    output of the i-th point [<base name>_split_<i>.mp4], counting from 1,
    and emits, for each point in turn, [segment_started(i, name)] and then
    [progress_updated(i - 1, n)], and after the last point
    [progress_updated(n, n)] and [splitting_completed]. *)
Theorem export_success_trace
        (mp : MoviePy) (self : VideoSplitter) (path out_dir : string)
        (split_points : list nat) (video : Clip (float mp))
        (points : list SplitPoint) :
  configured self path out_dir -> split_points <> [] ->
  open_clip mp path = inr video ->
  let n := length split_points in
  let base_name := base_name_of path in
  let points' :=
    resolved (int_of mp (times_1000 mp (clip_duration video))) split_points points in
  (forall k point,
      split_points !! k = Some point ->
      exists s e,
        point_times points' point = Some (s, e)
        /\ write_segment mp k s e (path_join out_dir (output_filename base_name k))
           = None) ->
  let w' := fst (split_video mp self split_points (world_of points)) in
  events w'
  = Call (VideoFileClip path)
    :: loop_events points' out_dir base_name n 0 split_points
    ++ [Call close; Emit (progress_updated n n); Emit splitting_completed]
  /\ signals_of (events w')
     = flat_map (segment_signals base_name n) (seq 0 n)
       ++ [progress_updated n n; splitting_completed]
  /\ calls_of (events w')
     = VideoFileClip path :: loop_calls points' out_dir base_name 0 split_points
       ++ [close]
  /\ files w' = loop_files out_dir base_name 0 n.
Proof.
  intros Hconf Hne Hopen n base_name points' Hall w'.
  assert (events w'
          = Call (VideoFileClip path)
            :: loop_events points' out_dir base_name n 0 split_points
            ++ [Call close; Emit (progress_updated n n); Emit splitting_completed]
          /\ files w' = loop_files out_dir base_name 0 n) as [Hev Hfiles].
  { subst w'.
    rewrite (split_video_configured mp self path out_dir split_points video _
               Hconf Hne Hopen).
    rewrite for_enumerate_ok by exact Hall.
    cbn [fst objects events files world_of app].
    split; reflexivity. }
  split; [exact Hev |]. split; [| split; [| exact Hfiles]].
  - rewrite Hev. change (signals_of (Call (VideoFileClip path) :: ?l)) with (signals_of l).
    rewrite signals_of_app, signals_of_loop_events; [reflexivity |].
    apply Forall_lookup. intros k point Hk.
    destruct (Hall k point Hk) as (s & e & Ht & _). rewrite Ht. eauto.
  - rewrite Hev.
    change (calls_of (Call (VideoFileClip path) :: ?l))
      with (VideoFileClip path :: calls_of l).
    rewrite calls_of_app, calls_of_loop_events. reflexivity.
Qed.

Lemma export_success_trace_witness :
  let self := {| video_path := Some "/videos/name.mp4"%string;
                 output_dir := Some "/out"%string |} in
  let table := run_ops [AddPoint 30000; AddPoint 60000] in
  let w' := fst (split_video working_encoder self (get_selected_points table)
                   (world_of (split_points table))) in
  signals_of (events w')
  = [segment_started 1 "name_split_1.mp4"; progress_updated 0 2;
     segment_started 2 "name_split_2.mp4"; progress_updated 1 2;
     progress_updated 2 2; splitting_completed]
  /\ files w' = ["/out/name_split_1.mp4"; "/out/name_split_2.mp4"]%string.
Proof.
  cbv zeta.
  destruct (export_success_trace working_encoder
              {| video_path := Some "/videos/name.mp4"%string;
                 output_dir := Some "/out"%string |}
              "/videos/name.mp4" "/out"
              (get_selected_points (run_ops [AddPoint 30000; AddPoint 60000]))
              (mkClip (90 : float working_encoder) 640 480 (30 : float working_encoder))
              (split_points (run_ops [AddPoint 30000; AddPoint 60000])))
    as (_ & Hsig & _ & Hfiles).
  - repeat split; discriminate.
  - discriminate.
  - reflexivity.
  - intros k point Hk.
    destruct k as [| [| k]]; cbn in Hk; [| | discriminate];
      injection Hk as <-; eexists; eexists; split; reflexivity.
  - split; [exact Hsig | exact Hfiles].
Defined.

(** C4: when the encoder raises on the point number [k] (counted from 0)
    of a configured export, after returning for the points before it, the
    export stops there: the signals are those of the points up to it,
    followed by one [error_occurred] that carries the message of the
    exception; no later point is announced or passed to the encoder,
    [splitting_completed] and [progress_updated(n, n)] are not emitted, and
    the output files of the points before it stay. *)
Theorem export_aborts_on_encoder_failure
        (mp : MoviePy) (self : VideoSplitter) (path out_dir : string)
        (split_points : list nat) (video : Clip (float mp))
        (points : list SplitPoint)
        (k point : nat) (s e : Z) (message : string) :
  configured self path out_dir ->
  open_clip mp path = inr video ->
  let n := length split_points in
  let base_name := base_name_of path in
  let points' :=
    resolved (int_of mp (times_1000 mp (clip_duration video))) split_points points in
  split_points !! k = Some point ->
  point_times points' point = Some (s, e) ->
  write_segment mp k s e (path_join out_dir (output_filename base_name k))
  = Some message ->
  (forall j point',
      (j < k)%nat -> split_points !! j = Some point' ->
      exists s' e',
        point_times points' point' = Some (s', e')
        /\ write_segment mp j s' e' (path_join out_dir (output_filename base_name j))
           = None) ->
  let w' := fst (split_video mp self split_points (world_of points)) in
  signals_of (events w')
  = flat_map (segment_signals base_name n) (seq 0 (S k))
    ++ [error_occurred ("Error splitting video: " ++ message)]
  /\ calls_of (events w')
     = VideoFileClip path
       :: loop_calls points' out_dir base_name 0 (take (S k) split_points)
  /\ files w' = loop_files out_dir base_name 0 k
  /\ ~ In splitting_completed (signals_of (events w'))
  /\ ~ In (progress_updated n n) (signals_of (events w'))
  /\ (forall j name,
        In (segment_started j name) (signals_of (events w')) -> (j <= S k)%nat).
Proof.
  cbv zeta. intros Hconf Hopen Hk Ht Hw Hbefore.
  set (n := length split_points).
  set (base_name := base_name_of path) in *.
  set (points' := resolved _ split_points points) in *.
  set (w' := fst (split_video mp self split_points (world_of points))).
  assert (split_points <> []) as Hne by (intros ->; discriminate).
  assert (k < n)%nat as Hkn by (apply lookup_lt_is_Some; eauto).
  assert (events w'
          = Call (VideoFileClip path)
            :: loop_events points' out_dir base_name n 0 (take (S k) split_points)
            ++ [Emit (error_occurred ("Error splitting video: " ++ message))]
          /\ files w' = loop_files out_dir base_name 0 k) as [Hev Hfiles].
  { subst w'.
    rewrite (split_video_configured mp self path out_dir split_points video _
               Hconf Hne Hopen).
    fold base_name n.
    match goal with
    | |- context [for_enumerate 0%nat _ _ ?w1] =>
        rewrite (for_enumerate_raise mp out_dir base_name n message split_points
                   k 0%nat w1 point s e Hk Ht Hw Hbefore)
    end.
    cbn [fst objects events files world_of app].
    split; reflexivity. }
  assert (signals_of (events w')
          = flat_map (segment_signals base_name n) (seq 0 (S k))
            ++ [error_occurred ("Error splitting video: " ++ message)]) as Hsig.
  { rewrite Hev. change (signals_of (Call (VideoFileClip path) :: ?l)) with (signals_of l).
    rewrite signals_of_app, signals_of_loop_events.
    - rewrite length_take_le by (fold n; lia). reflexivity.
    - apply Forall_lookup. intros j point' Hj.
      apply lookup_take_Some in Hj as [Hj Hlt].
      destruct (decide (j = k)) as [-> | Hjk].
      + rewrite Hk in Hj. injection Hj as <-. rewrite Ht. eauto.
      + destruct (Hbefore j point' ltac:(lia) Hj) as (s' & e' & Ht' & _).
        rewrite Ht'. eauto. }
  split; [exact Hsig |]. split; [| split; [exact Hfiles |]].
  - rewrite Hev.
    change (calls_of (Call (VideoFileClip path) :: ?l))
      with (VideoFileClip path :: calls_of l).
    rewrite calls_of_app, calls_of_loop_events. f_equal. apply app_nil_r.
  - rewrite Hsig. repeat split.
    + intros H. apply in_app_or in H as [H | [H | []]]; [| discriminate].
      apply in_segment_signals in H as (i & _ & [H | H]); discriminate.
    + intros H. apply in_app_or in H as [H | [H | []]]; [| discriminate].
      apply in_segment_signals in H as (i & Hi & [H | H]); [discriminate |].
      injection H as H. lia.
    + intros j name H. apply in_app_or in H as [H | [H | []]]; [| discriminate].
      apply in_segment_signals in H as (i & Hi & [H | H]); [| discriminate].
      injection H as -> _. lia.
Qed.

Lemma export_aborts_on_encoder_failure_witness :
  let self := {| video_path := Some "/videos/name.mp4"%string;
                 output_dir := Some "/out"%string |} in
  let table := run_ops [AddPoint 30000; AddPoint 60000; AddPoint 80000] in
  let w' := fst (split_video second_fails self (get_selected_points table)
                   (world_of (split_points table))) in
  signals_of (events w')
  = [segment_started 1 "name_split_1.mp4"; progress_updated 0 3;
     segment_started 2 "name_split_2.mp4"; progress_updated 1 3;
     error_occurred "Error splitting video: encoder failed"]
  /\ files w' = ["/out/name_split_1.mp4"%string]
  /\ ~ In splitting_completed (signals_of (events w')).
Proof.
  cbv zeta.
  destruct (export_aborts_on_encoder_failure second_fails
              {| video_path := Some "/videos/name.mp4"%string;
                 output_dir := Some "/out"%string |}
              "/videos/name.mp4" "/out"
              (get_selected_points
                 (run_ops [AddPoint 30000; AddPoint 60000; AddPoint 80000]))
              (mkClip (90 : float second_fails) 640 480 (30 : float second_fails))
              (split_points (run_ops [AddPoint 30000; AddPoint 60000; AddPoint 80000]))
              1%nat 1%nat 30000 60000 "encoder failed")
    as (Hsig & _ & Hfiles & Hdone & _).
  - repeat split; discriminate.
  - reflexivity.
  - reflexivity.
  - reflexivity.
  - reflexivity.
  - intros j point' Hj Hl.
    destruct j as [| j]; [| lia]. cbn in Hl. injection Hl as <-.
    eexists; eexists; split; reflexivity.
  - split; [exact Hsig | split; [exact Hfiles | exact Hdone]].
Defined.

(** C6 (as the code has it): an export without a source path or without
    an output directory, or with no point selected, stops before any work
    starts: the one signal it emits is [error_occurred] with the message of
    the configuration error, the video is not opened, the encoder is not
    called, no file is written and no split point changes. *)
Theorem export_refused_without_configuration
        (mp : MoviePy) (self : VideoSplitter) (split_points : list nat)
        (points : list SplitPoint) :
  (truthy (video_path self) = false \/ truthy (output_dir self) = false ->
   split_video mp self split_points (world_of points)
   = ({| objects := points;
         events := [Emit (error_occurred "Video path or output directory not set")];
         files := [] |}, Ok ()))
  /\ (truthy (video_path self) = true -> truthy (output_dir self) = true ->
      split_points = [] ->
      split_video mp self split_points (world_of points)
      = ({| objects := points;
            events := [Emit (error_occurred "No split points defined")];
            files := [] |}, Ok ())).
Proof.
  split.
  - intros H. rewrite split_video_unconfigured by exact H. reflexivity.
  - intros H1 H2 ->. rewrite split_video_no_points by assumption. reflexivity.
Qed.

Lemma export_refused_without_configuration_witness :
  let self := {| video_path := Some "/videos/name.mp4"%string; output_dir := None |} in
  let points := [mkSplitPoint (Some 0) (Some 30000) true] in
  split_video working_encoder self [0%nat] (world_of points)
  = ({| objects := points;
        events := [Emit (error_occurred "Video path or output directory not set")];
        files := [] |}, Ok ()).
Proof.
  apply (proj1 (export_refused_without_configuration working_encoder
                  {| video_path := Some "/videos/name.mp4"%string; output_dir := None |}
                  [0%nat] [mkSplitPoint (Some 0) (Some 30000) true])).
  right. reflexivity.
Defined.

(** C6, counterexample: an export without an output directory does emit a
    signal, [error_occurred]. *)
Lemma export_without_output_dir_signals :
  signals_of
    (events
       (fst (split_video working_encoder
               {| video_path := Some "/videos/name.mp4"%string; output_dir := None |}
               [0%nat] (world_of [mkSplitPoint (Some 0) (Some 30000) true]))))
  = [error_occurred "Video path or output directory not set"]
  /\ signals_of
       (events
          (fst (split_video working_encoder
                  {| video_path := Some "/videos/name.mp4"%string; output_dir := None |}
                  [0%nat] (world_of [mkSplitPoint (Some 0) (Some 30000) true]))))
     <> [].
Proof. split; [reflexivity | discriminate]. Qed.

(** C2, on the code: when the encoder raises, [split_video] has opened the
    video and reports the error, and [video.close()] is not called: the
    exception leaves the [try] block before the call, and the handler does
    not close. *)
Theorem export_failure_leaves_video_open :
  let self := {| video_path := Some "/videos/name.mp4"%string;
                 output_dir := Some "/out"%string |} in
  let w' := fst (split_video failing_encoder self [0%nat]
                   (world_of [mkSplitPoint (Some 0) (Some 30000) true])) in
  opened (events w') = true
  /\ released (events w') = false
  /\ events w'
     = [Call (VideoFileClip "/videos/name.mp4");
        Emit (segment_started 1 "name_split_1.mp4");
        Emit (progress_updated 0 1);
        Call (subclipped_write 0 30000 "/out/name_split_1.mp4" "/out/temp_audio_0.m4a");
        Emit (error_occurred "Error splitting video: encoder failed")].
Proof. repeat split. Qed.

(** The same export with an encoder that returns does close the video. *)
Example export_success_closes_video :
  released
    (events
       (fst (split_video working_encoder
               {| video_path := Some "/videos/name.mp4"%string;
                  output_dir := Some "/out"%string |}
               [0%nat] (world_of [mkSplitPoint (Some 0) (Some 30000) true]))))
  = true.
Proof. reflexivity. Qed.

(** [get_video_info] closes the video it has opened. *)
Lemma get_video_info_closes (mp : MoviePy) (self : VideoSplitter) (path : string)
      (video : Clip (float mp)) (w : world) :
  video_path self = Some path -> path <> ""%string ->
  open_clip mp path = inr video ->
  events (fst (get_video_info mp self w))
  = events w ++ [Call (VideoFileClip path); Call close].
Proof.
  intros Hp Hne Hopen. unfold get_video_info.
  rewrite Hp, truthy_Some by exact Hne. cbn [negb default].
  unfold id. rewrite bind_eq. unfold open_video. rewrite bind_eq.
  unfold log at 1. rewrite Hopen. unfold ret at 1. rewrite bind_eq.
  unfold close_video, log, ret. cbn [fst objects events files].
  rewrite <- app_assoc. reflexivity.
Qed.

(** C10: a configured export that has opened the video writes the duration
    of the video into the end of the last point it is given, when that end
    is unset, in the object itself: whether the encoder then returns or
    raises, the list of objects the caller holds has that end set, and
    every other field of every point is as it was. *)
Theorem export_resolves_open_end_in_place
        (mp : MoviePy) (self : VideoSplitter) (path out_dir : string)
        (split_points : list nat) (video : Clip (float mp))
        (points : list SplitPoint) (r : nat) (p : SplitPoint) :
  configured self path out_dir ->
  open_clip mp path = inr video ->
  last split_points = Some r ->
  points !! r = Some p ->
  end_time p = None ->
  let d := int_of mp (times_1000 mp (clip_duration video)) in
  let w' := fst (split_video mp self split_points (world_of points)) in
  objects w' = alter (set_end_time (Some d)) r points
  /\ objects w' !! r = Some (mkSplitPoint (start_time p) (Some d) (selected p))
  /\ (forall j q,
        j <> r -> points !! j = Some q -> objects w' !! j = Some q).
Proof.
  intros Hconf Hopen Hlast Hp He d w'.
  assert (split_points <> []) as Hne by (intros ->; discriminate).
  assert (objects w' = alter (set_end_time (Some d)) r points) as Hobj.
  { subst w'.
    rewrite (split_video_configured mp self path out_dir split_points video _
               Hconf Hne Hopen).
    match goal with
    | |- context [for_enumerate 0%nat split_points ?body ?w1] =>
        pose proof (for_enumerate_objects mp out_dir (base_name_of path)
                      (length split_points) split_points 0%nat w1) as Hloop;
        destruct (for_enumerate 0%nat split_points body w1) as [w2 [[] | msg]]
    end.
    all: cbn [fst objects] in Hloop |- *; rewrite Hloop.
    all: unfold resolved; rewrite Hlast; cbn [world_of objects]; rewrite Hp;
      cbn; rewrite He; reflexivity. }
  split; [exact Hobj |]. rewrite Hobj. split.
  - rewrite list_lookup_alter_eq, Hp. reflexivity.
  - intros j q Hj Hq. rewrite list_lookup_alter_ne by congruence. exact Hq.
Qed.

Lemma export_resolves_open_end_in_place_witness :
  let self := {| video_path := Some "/videos/name.mp4"%string;
                 output_dir := Some "/out"%string |} in
  let table := update_table [mkSplitPoint (Some 0) (Some 30000) false;
                             mkSplitPoint (Some 30000) None true] in
  get_selected_points table = [1%nat]
  /\ objects (fst (split_video failing_encoder self (get_selected_points table)
                     (world_of (split_points table))))
     = [mkSplitPoint (Some 0) (Some 30000) false;
        mkSplitPoint (Some 30000) (Some 90000) true].
Proof.
  cbv zeta. split; [reflexivity |].
  apply (export_resolves_open_end_in_place failing_encoder
           {| video_path := Some "/videos/name.mp4"%string;
              output_dir := Some "/out"%string |}
           "/videos/name.mp4" "/out" [1%nat]
           (mkClip (90 : float failing_encoder) 640 480 (30 : float failing_encoder))
           [mkSplitPoint (Some 0) (Some 30000) false;
            mkSplitPoint (Some 30000) None true]
           1%nat (mkSplitPoint (Some 30000) None true)).
  - repeat split; discriminate.
  - reflexivity.
  - reflexivity.
  - reflexivity.
  - reflexivity.
Defined.


(** ** More on the time text format *)

Section TimeFormatMore.
Import PyText PyTextFacts.

Lemma strip_ends s c r x :
  s = c :: r -> last s = Some x -> is_space c = false -> is_space x = false ->
  strip s = s.
Proof.
  intros -> Hlast Hc Hx. unfold strip, rstrip.
  cbn [lstrip]. rewrite Hc.
  apply last_Some in Hlast as [init E]. rewrite E, rev_app_distr.
  cbn [rev app lstrip]. rewrite Hx.
  change (x :: rev init) with (rev [x] ++ rev init).
  rewrite <- rev_app_distr, rev_involutive. reflexivity.
Qed.

(** [int] reads a minus sign followed by a run of digits as the opposite
    of the run. *)
Lemma int_minus_digits ds :
  all_digits ds -> ds <> [] -> int ("-"%char :: ds) = Some (- value ds 0).
Proof.
  intros Hall Hne.
  destruct (last ds) as [x |] eqn:Hlast; [| apply last_None in Hlast; contradiction].
  assert (is_digit x = true) as Hx.
  { apply last_Some in Hlast as [init ->]. apply Forall_app in Hall as [_ Hall].
    inversion Hall; assumption. }
  unfold int.
  rewrite (strip_ends ("-"%char :: ds) "-" ds x eq_refl).
  - cbn. rewrite (scan_digits_start ds 0 Hall Hne). reflexivity.
  - destruct ds; [contradiction | exact Hlast].
  - reflexivity.
  - apply is_digit_not_space. exact Hx.
Qed.

(** What [format(n, "0<width>d")] prints, [int] reads back, whatever the
    sign. *)
Lemma int_format_0d_any width n : int (format_0d width n) = Some n.
Proof.
  destruct (Z.ltb_spec n 0) as [Hneg | Hpos]; [| apply int_format_0d; exact Hpos].
  unfold format_0d. destruct (Z.ltb_spec n 0) as [_ | ?]; [| lia].
  destruct (digits_spec (- n) ltac:(lia)) as (Hall & Hne & Hv).
  destruct (zfill_spec (width - 1) _ Hall Hne) as (H1 & H2 & H3).
  rewrite (int_minus_digits _ H1 H2), H3, Hv. f_equal. lia.
Qed.

Lemma time_arith_any m :
  m = (m / 1000 / 60 / 60 * 3600 + (m / 1000 / 60) mod 60 * 60 + (m / 1000) mod 60)
      * 1000 + m mod 1000.
Proof.
  pose proof (Z.div_mod m 1000 ltac:(lia)).
  pose proof (Z.div_mod (m / 1000) 60 ltac:(lia)).
  pose proof (Z.div_mod (m / 1000 / 60) 60 ltac:(lia)).
  lia.
Qed.

Lemma parse_time_format_time m : parse_time (format_time (Some m)) = Some m.
Proof.
  apply parse_time_Some_iff. unfold format_time. cbv zeta.
  rewrite list_ascii_of_string_of_list_ascii.
  eexists _, _, _, _, _, _, _, _. split; [reflexivity |].
  rewrite !int_format_0d_any.
  repeat (split; [reflexivity |]).
  apply time_arith_any.
Qed.

(** The number of digits. *)
Lemma digits_aux_length fuel : forall n acc k,
  (1 <= k)%nat -> 0 <= n < 10 ^ Z.of_nat k ->
  (length (digits_aux fuel n acc) <= k + length acc)%nat.
Proof.
  induction fuel as [| f IH]; intros n acc k Hk Hn; cbn [digits_aux]; [lia |].
  destruct (Z.ltb_spec n 10) as [Hlt | Hge]; [cbn [length]; lia |].
  destruct k as [| [| k]]; [lia | change (10 ^ Z.of_nat 1) with 10 in Hn; lia |].
  specialize (IH (n / 10) (digit_char (n mod 10) :: acc) (S k) ltac:(lia)).
  cbn [length] in IH.
  assert (0 <= n / 10 < 10 ^ Z.of_nat (S k)) as Hq.
  { split; [apply Z.div_pos; lia |].
    apply Z.div_lt_upper_bound; [lia |].
    rewrite (Nat2Z.inj_succ (S k)), Z.pow_succ_r in Hn by lia. lia. }
  specialize (IH Hq). lia.
Qed.

Lemma format_0d_length width n :
  (1 <= width)%nat -> 0 <= n < 10 ^ Z.of_nat width ->
  length (format_0d width n) = width.
Proof.
  intros Hw Hn. unfold format_0d.
  destruct (Z.ltb_spec n 0) as [? | _]; [lia |].
  unfold zfill. rewrite length_app, length_replicate.
  pose proof (digits_aux_length (S (Z.to_nat (Z.log2 n))) n [] width Hw Hn) as H.
  cbn [length] in H. unfold digits. lia.
Qed.

Lemma format_0d_min_length width n :
  0 <= n -> (width <= length (format_0d width n))%nat.
Proof.
  intros Hn. unfold format_0d.
  destruct (Z.ltb_spec n 0) as [? | _]; [lia |].
  unfold zfill. rewrite length_app, length_replicate. lia.
Qed.

Lemma span_digits_app ds c rest :
  all_digits ds -> is_digit c = false -> span_digits (ds ++ c :: rest) = (ds, c :: rest).
Proof.
  intros Hall Hc. induction Hall as [| d ds Hd _ IH]; cbn [app span_digits].
  - rewrite Hc. reflexivity.
  - rewrite Hd, IH. reflexivity.
Qed.

Lemma two_chars (l : chars) : length l = 2%nat -> exists a b, l = [a; b].
Proof. destruct l as [| a [| b [| ? ?]]]; try discriminate. eauto. Qed.

Lemma three_chars (l : chars) : length l = 3%nat -> exists a b c, l = [a; b; c].
Proof. destruct l as [| a [| b [| c [| ? ?]]]]; try discriminate. eauto. Qed.

End TimeFormatMore.

(** X1: [parse_time] undoes [format_time] for every integer, negative
    ones included, and reads the text shown for an unset time as 0. *)
Theorem parse_format_roundtrip_all :
  (forall m : Z, parse_time (format_time (Some m)) = Some m)
  /\ parse_time (format_time None) = Some 0.
Proof. split; [apply parse_time_format_time | reflexivity]. Qed.

(** X2: for a non-negative number of milliseconds [format_time] prints a
    text of the canonical shape [HH:MM:SS.mmm]. *)
Theorem format_time_canonical (m : Z) :
  0 <= m -> canonical_shape (format_time (Some m)) = true.
Proof.
  intros Hm. unfold format_time. cbv zeta.
  assert (0 <= m / 1000) as H1 by (apply Z.div_pos; lia).
  assert (0 <= m / 1000 / 60) as H2 by (apply Z.div_pos; lia).
  assert (0 <= m / 1000 / 60 / 60) as H3 by (apply Z.div_pos; lia).
  assert (0 <= (m / 1000 / 60) mod 60 < 60) as H4 by (apply Z.mod_pos_bound; lia).
  assert (0 <= (m / 1000) mod 60 < 60) as H5 by (apply Z.mod_pos_bound; lia).
  assert (0 <= m mod 1000 < 1000) as H6 by (apply Z.mod_pos_bound; lia).
  destruct (PyTextFacts.format_0d_spec 2 _ H3) as (Ah & _ & _).
  destruct (PyTextFacts.format_0d_spec 2 _ (proj1 H4)) as (Am & _ & _).
  destruct (PyTextFacts.format_0d_spec 2 _ (proj1 H5)) as (As & _ & _).
  destruct (PyTextFacts.format_0d_spec 3 _ (proj1 H6)) as (Ams & _ & _).
  pose proof (format_0d_min_length 2 _ H3) as Lh.
  destruct (two_chars _ (format_0d_length 2 ((m / 1000 / 60) mod 60) ltac:(lia)
                           ltac:(change (10 ^ Z.of_nat 2) with 100; lia)))
    as (m1 & m2 & Em).
  destruct (two_chars _ (format_0d_length 2 ((m / 1000) mod 60) ltac:(lia)
                           ltac:(change (10 ^ Z.of_nat 2) with 100; lia)))
    as (s1 & s2 & Es).
  destruct (three_chars _ (format_0d_length 3 (m mod 1000) ltac:(lia)
                             ltac:(change (10 ^ Z.of_nat 3) with 1000; lia)))
    as (k1 & k2 & k3 & Ems).
  rewrite Em, Es, Ems in *.
  unfold canonical_shape. rewrite list_ascii_of_string_of_list_ascii.
  rewrite (span_digits_app _ ":" _ Ah eq_refl).
  apply Nat.leb_le in Lh. rewrite Lh. cbn [app andb].
  inversion Am as [| ? ? Hm1 Am']; inversion Am' as [| ? ? Hm2 _]; subst.
  inversion As as [| ? ? Hs1 As']; inversion As' as [| ? ? Hs2 _]; subst.
  inversion Ams as [| ? ? Hk1 Ams']; inversion Ams' as [| ? ? Hk2 Ams''];
    inversion Ams'' as [| ? ? Hk3 _]; subst.
  rewrite Hm1, Hm2, Hs1, Hs2, Hk1, Hk2, Hk3. reflexivity.
Qed.

Lemma format_time_canonical_witness :
  0 <= 3723004 /\ canonical_shape (format_time (Some 3723004)) = true.
Proof. split; [lia | apply (format_time_canonical 3723004); lia]. Defined.

(** A negative time is printed with a sign, which is not the canonical
    shape. *)
Example format_time_negative :
  format_time (Some (-1)) = "-1:59:59.999"%string
  /\ canonical_shape (format_time (Some (-1))) = false.
Proof. split; reflexivity. Qed.

(** ** More on the split-point table *)

Section TableMore.

Lemma row_of_set_selected checked p : row_of (set_selected checked p) = row_of p.
Proof. reflexivity. Qed.

Lemma update_table_drawn points : drawn (update_table points).
Proof. reflexivity. Qed.

Lemma alter_id_at {A} (f : A -> A) (i : nat) (l : list A) :
  l !! i = None -> alter f i l = l.
Proof.
  intros H. apply alter_fixed. intros x Hx. congruence.
Qed.

Lemma set_item_text_drawn self row column text :
  drawn self ->
  (length (split_points self) <= row)%nat \/ (column <> 1%nat /\ column <> 2%nat) ->
  set_item_text self row column text = self.
Proof.
  intros Hd Hcase. unfold set_item_text. destruct self as [points rws].
  cbn [split_points rows] in *. f_equal.
  destruct Hcase as [Hrow | [H1 H2]].
  - apply alter_id_at. apply lookup_ge_None. unfold drawn in Hd. cbn in Hd.
    rewrite Hd, length_fmap. exact Hrow.
  - apply alter_fixed. intros r _.
    destruct column as [| [| [| c]]]; try reflexivity; contradiction.
Qed.

Lemma apply_op_drawn self op : drawn self -> drawn (apply_op self op).
Proof.
  intros Hd. destruct op as [current_time | row column text | row checked];
    cbn [apply_op].
  - unfold add_split_point. cbv zeta. destruct (1 <? _)%nat; apply update_table_drawn.
  - unfold edit_cell, cell_edited. cbv zeta.
    change (split_points (set_item_text self row column text)) with (split_points self).
    destruct (Nat.leb_spec (length (split_points self)) row) as [Hle | Hlt].
    + cbn [orb fst]. rewrite set_item_text_drawn by auto. exact Hd.
    + destruct (column =? 1)%nat eqn:H1; destruct (column =? 2)%nat eqn:H2;
        cbn [orb negb fst].
      4:{ rewrite set_item_text_drawn; [exact Hd | exact Hd |].
          right. split; [apply Nat.eqb_neq; exact H1 | apply Nat.eqb_neq; exact H2]. }
      all: rewrite item_set_item_text;
        [| rewrite (f_equal length Hd), length_fmap; exact Hlt
         | apply Nat.eqb_eq in H1 || apply Nat.eqb_eq in H2; auto].
      all: destruct (parse_time text); cbn [fst]; apply update_table_drawn.
  - unfold toggle_selection. destruct (_ <? _)%nat; [| exact Hd].
    unfold drawn. cbn [rows split_points]. rewrite Hd.
    apply list_eq. intros j. rewrite !list_lookup_fmap, list_lookup_alter.
    destruct (decide (row = j)) as [-> |]; [| reflexivity].
    destruct (split_points self !! j); reflexivity.
Qed.

Lemma apply_op_all_set self op :
  all_set (split_points self) -> all_set (split_points (apply_op self op)).
Proof.
  intros H. destruct op as [current_time | row column text | row checked];
    cbn [apply_op].
  - rewrite add_split_point_points. apply Forall_app. split; [exact H |].
    constructor; [| constructor]. cbn. split; [| eauto].
    destruct (last (split_points self)) as [p |] eqn:Hlast; [| eauto].
    apply last_Some in Hlast as [init E]. unfold all_set in H. rewrite E in H.
    apply Forall_app in H as [_ H]. inversion H as [| ? ? [_ He] _]. exact He.
  - assert (forall v i l, all_set l -> all_set (alter (set_start_time (Some v)) i l))
      as Hs by (intros; apply Forall_alter; [assumption |];
                intros x _ [_ He]; split; [cbn; eauto | exact He]).
    assert (forall v i l, all_set l -> all_set (alter (set_end_time (Some v)) i l))
      as He by (intros; apply Forall_alter; [assumption |];
                intros x _ [Hst _]; split; [exact Hst | cbn; eauto]).
    destruct (edit_cell_points self row column text)
      as [-> | (v & _ & _ & [[_ ->] | [_ ->]])]; [exact H | |].
    + destruct (0 <? row)%nat; auto.
    + destruct (row <? _)%nat; auto.
  - unfold toggle_selection. destruct (_ <? _)%nat; [| exact H].
    cbn [split_points]. apply Forall_alter; [exact H |]. intros x _ Hx. exact Hx.
Qed.

Lemma run_ops_invariants ops :
  linked (split_points (run_ops ops)) /\ all_set (split_points (run_ops ops))
  /\ drawn (run_ops ops).
Proof.
  unfold run_ops.
  apply (foldl_apply_op_invariant
           (fun t => linked (split_points t) /\ all_set (split_points t) /\ drawn t)).
  - intros t op _ (H1 & H2 & H3).
    split; [apply apply_op_linked; exact H1 |].
    split; [apply apply_op_all_set; exact H2 | apply apply_op_drawn; exact H3].
  - split; [intros j p q Hp; discriminate |]. split; [constructor | reflexivity].
Qed.

Lemma set_start_time_eq v p : start_time p = v -> set_start_time v p = p.
Proof. intros <-. destruct p. reflexivity. Qed.

Lemma set_end_time_eq v p : end_time p = v -> set_end_time v p = p.
Proof. intros <-. destruct p. reflexivity. Qed.

Lemma drawn_displayed self : drawn self -> displayed self.
Proof. intros H. unfold displayed. rewrite H, length_fmap. reflexivity. Qed.

(** The durations of a gapless list of points with set times add up to the
    span from the first start to the last end. *)
Lemma total_duration_span points : forall first,
  linked (first :: points) -> all_set (first :: points) ->
  exists s e, start_time first = Some s
              /\ (last (first :: points) ≫= end_time) = Some e
              /\ total_duration (first :: points) = e - s.
Proof.
  induction points as [| q rest IH]; intros first Hl Ha.
  - inversion Ha as [| ? ? [[s Hs] [e He]] _]; subst.
    exists s, e. split; [exact Hs |]. split; [cbn; exact He |].
    unfold total_duration, duration. cbn. rewrite Hs, He. lia.
  - assert (linked (q :: rest)) as Hl'
        by (intros j p p' Hp Hp'; apply (Hl (S j) p p'); assumption).
    inversion Ha as [| ? ? [[s Hs] [e He]] Ha']; subst.
    destruct (IH q Hl' Ha') as (s' & e' & Hs' & He' & Hsum).
    pose proof (Hl 0%nat first q eq_refl eq_refl) as Hlink.
    exists s, e'. split; [exact Hs |]. split; [exact He' |].
    unfold total_duration in *. cbn [fmap list_fmap foldr] in *.
    rewrite Hsum. unfold duration at 1. rewrite He, Hs.
    rewrite Hlink, Hs' in He. injection He as <-. lia.
Qed.

End TableMore.

(** X4: [toggle_selection(row, state)] on a row of the table stores the
    value of the comparison [state == Qt.Checked] in the selection of that
    row and changes nothing else: every start and end time and the selection
    of the other rows stay, and the row is in [get_selected_points]
    afterwards exactly when the comparison held; on a row beyond the table
    it does nothing.  The comparison is what the Qt binding makes of it:
    under a binding for which the integer state never equals [Qt.Checked],
    every toggle, checking included, leaves the row unselected. *)
Theorem toggle_selection_stores_comparison
        (state_is_checked : Z -> bool) (self : SplitPointsTable) (row : nat) (state : Z) :
  ((length (split_points self) <= row)%nat ->
   toggle_selection_state state_is_checked self row state = self)
  /\ (forall p,
        split_points self !! row = Some p ->
        split_points (toggle_selection_state state_is_checked self row state) !! row
        = Some (mkSplitPoint (start_time p) (end_time p) (state_is_checked state))
        /\ (In row (get_selected_points
                      (toggle_selection_state state_is_checked self row state))
            <-> state_is_checked state = true))
  /\ (forall j, j <> row ->
        split_points (toggle_selection_state state_is_checked self row state) !! j
        = split_points self !! j)
  /\ ((forall st, state_is_checked st = false) ->
      ~ In row (get_selected_points
                  (toggle_selection_state state_is_checked self row state))).
Proof.
  unfold toggle_selection_state.
  set (checked := state_is_checked state).
  assert (forall p,
             split_points self !! row = Some p ->
             split_points (toggle_selection self row checked) !! row
             = Some (mkSplitPoint (start_time p) (end_time p) checked)
             /\ (In row (get_selected_points (toggle_selection self row checked))
                 <-> checked = true)) as Hrow.
  { intros p Hp. unfold toggle_selection.
    assert (row < length (split_points self))%nat as Hlt
        by (apply lookup_lt_is_Some; eauto).
    destruct (Nat.ltb_spec row (length (split_points self))) as [_ | ?]; [| lia].
    cbn [split_points].
    assert (alter (set_selected checked) row (split_points self) !! row
            = Some (mkSplitPoint (start_time p) (end_time p) checked)) as Hnew
        by (rewrite list_lookup_alter_eq, Hp; reflexivity).
    split; [exact Hnew |].
    unfold get_selected_points. rewrite selected_from_elem, Nat.sub_0_r.
    cbn [split_points]. rewrite Hnew. split.
    - intros (_ & q & Hq & Hsel). injection Hq as <-. exact Hsel.
    - intros ->. split; [lia | eauto]. }
  split; [| split; [exact Hrow | split]].
  - intros Hge. unfold toggle_selection.
    destruct (Nat.ltb_spec row (length (split_points self))); [lia | reflexivity].
  - intros j Hj. unfold toggle_selection. destruct (_ <? _)%nat; [| reflexivity].
    cbn [split_points]. apply list_lookup_alter_ne. congruence.
  - intros Hnever Hin.
    destruct (split_points self !! row) as [p |] eqn:Hp.
    + apply (Hrow p eq_refl) in Hin. subst checked. rewrite Hnever in Hin.
      discriminate.
    + unfold get_selected_points in Hin.
      apply selected_from_elem in Hin as (_ & q & Hq & _).
      rewrite Nat.sub_0_r in Hq. unfold toggle_selection in Hq.
      apply lookup_ge_None in Hp.
      destruct (Nat.ltb_spec row (length (split_points self))) as [? | _]; [lia |].
      apply lookup_lt_Some in Hq. lia.
Qed.

Lemma toggle_selection_stores_comparison_witness :
  (In 0%nat (get_selected_points
               (toggle_selection_state (Z.eqb 2)
                  (run_ops [AddPoint 30000; AddPoint 60000]) 0 0))
   <-> Z.eqb 2 0 = true)
  /\ ~ In 0%nat (get_selected_points
                   (toggle_selection_state (fun _ => false)
                      (run_ops [AddPoint 30000; AddPoint 60000]) 0 2)).
Proof.
  split.
  - apply (proj1 (proj2 (toggle_selection_stores_comparison (Z.eqb 2)
                           (run_ops [AddPoint 30000; AddPoint 60000]) 0 0))
             (mkSplitPoint (Some 0) (Some 30000) true)).
    reflexivity.
  - apply (proj2 (proj2 (proj2 (toggle_selection_stores_comparison (fun _ => false)
                                  (run_ops [AddPoint 30000; AddPoint 60000]) 0 2)))).
    reflexivity.
Defined.

(** X5: in every table the sequencer operations can build, each point has
    its start and its end set: an open-ended point is never produced. *)
Theorem table_times_always_set (ops : list table_op) :
  forall row p,
    split_points (run_ops ops) !! row = Some p ->
    exists s e, start_time p = Some s /\ end_time p = Some e
                /\ duration p = e - s.
Proof.
  intros row p Hp. destruct (run_ops_invariants ops) as (_ & Hall & _).
  unfold all_set in Hall. rewrite Forall_lookup in Hall.
  destruct (Hall row p Hp) as [[s Hs] [e He]].
  exists s, e. split; [exact Hs |]. split; [exact He |].
  unfold duration. rewrite He, Hs. reflexivity.
Qed.

Lemma table_times_always_set_witness :
  exists s e,
    start_time (mkSplitPoint (Some 30000) (Some 60000) true) = Some s
    /\ end_time (mkSplitPoint (Some 30000) (Some 60000) true) = Some e
    /\ duration (mkSplitPoint (Some 30000) (Some 60000) true) = e - s.
Proof.
  apply (table_times_always_set [AddPoint 30000; AddPoint 60000] 1%nat). reflexivity.
Defined.

(** X6: in every table the sequencer operations can build, the durations
    of the rows add up to the end of the last row minus the start of the
    first row. *)
Theorem table_durations_add_up (ops : list table_op) (first final : SplitPoint) :
  head (split_points (run_ops ops)) = Some first ->
  last (split_points (run_ops ops)) = Some final ->
  exists s e, start_time first = Some s /\ end_time final = Some e
              /\ total_duration (split_points (run_ops ops)) = e - s.
Proof.
  intros Hhead Hlast. destruct (run_ops_invariants ops) as (Hl & Ha & _).
  destruct (split_points (run_ops ops)) as [| p rest]; [discriminate |].
  cbn in Hhead. injection Hhead as ->.
  destruct (total_duration_span rest first Hl Ha) as (s & e & Hs & He & Hsum).
  rewrite Hlast in He. cbn in He. eauto.
Qed.

Lemma table_durations_add_up_witness :
  exists s e,
    start_time (mkSplitPoint (Some 0) (Some 30000) true) = Some s
    /\ end_time (mkSplitPoint (Some 60000) (Some 80000) true) = Some e
    /\ total_duration
         (split_points (run_ops [AddPoint 30000; AddPoint 60000; AddPoint 80000]))
       = e - s.
Proof.
  apply (table_durations_add_up [AddPoint 30000; AddPoint 60000; AddPoint 80000]);
    reflexivity.
Defined.

(** X7: in every table the sequencer operations can build, entering into a
    time cell the very text the cell shows is accepted and changes nothing,
    neither a split point nor the display. *)
Theorem edit_with_shown_text_changes_nothing
        (ops : list table_op) (row column : nat) (text : string) :
  (row < length (split_points (run_ops ops)))%nat ->
  column = 1%nat \/ column = 2%nat ->
  item (run_ops ops) row column = Some text ->
  edit_cell (run_ops ops) row column text = (run_ops ops, Applied).
Proof.
  intros Hrow Hcol Hitem.
  destruct (run_ops_invariants ops) as (Hl & Ha & Hd).
  rewrite edit_cell_eq by (auto using drawn_displayed).
  destruct (lookup_lt_is_Some_2 _ _ Hrow) as [p Hp].
  unfold all_set in Ha. rewrite Forall_lookup in Ha.
  destruct (Ha row p Hp) as [[s Hs] [e He]].
  unfold item in Hitem. rewrite Hd, list_lookup_fmap, Hp in Hitem. cbn in Hitem.
  assert (edited_points column row
            (match column with 1%nat => s | _ => e end)
            (split_points (run_ops ops))
          = split_points (run_ops ops)) as Hsame.
  { unfold edited_points. destruct Hcol as [-> | ->]; cbn [Nat.eqb].
    - destruct (Nat.ltb_spec 0 row) as [Hpos | Hzero].
      + rewrite (alter_fixed (set_start_time (Some s)) _ row)
          by (intros x Hx; rewrite Hp in Hx; injection Hx as <-;
              apply set_start_time_eq; exact Hs).
        apply alter_fixed. intros x Hx.
        pose proof (Hl (row - 1)%nat x p Hx) as Hlink.
        replace (S (row - 1)) with row in Hlink by lia.
        specialize (Hlink Hp). apply set_end_time_eq. congruence.
      + apply alter_fixed. intros x Hx. rewrite Hp in Hx. injection Hx as <-.
        apply set_start_time_eq. exact Hs.
    - destruct (Nat.ltb_spec row (length (split_points (run_ops ops)) - 1))
        as [Hnext | Hlast].
      + rewrite (alter_fixed (set_end_time (Some e)) _ row)
          by (intros x Hx; rewrite Hp in Hx; injection Hx as <-;
              apply set_end_time_eq; exact He).
        apply alter_fixed. intros x Hx.
        replace (row + 1)%nat with (S row) in Hx by lia.
        pose proof (Hl row p x Hp Hx) as Hlink.
        apply set_start_time_eq. congruence.
      + apply alter_fixed. intros x Hx. rewrite Hp in Hx. injection Hx as <-.
        apply set_end_time_eq. exact He. }
  assert (parse_time text = Some (match column with 1%nat => s | _ => e end)) as ->.
  { destruct Hcol as [-> | ->]; cbn in Hitem; injection Hitem as <-.
    - rewrite Hs. apply parse_time_format_time.
    - rewrite He. apply parse_time_format_time. }
  rewrite Hsame. f_equal.
  destruct (run_ops ops) as [points rws]. unfold update_table, drawn in *.
  cbn [split_points rows] in *. rewrite Hd. reflexivity.
Qed.

Lemma edit_with_shown_text_changes_nothing_witness :
  edit_cell (run_ops [AddPoint 30000; AddPoint 60000]) 1 1 "00:00:30.000"
  = (run_ops [AddPoint 30000; AddPoint 60000], Applied).
Proof.
  apply (edit_with_shown_text_changes_nothing [AddPoint 30000; AddPoint 60000]).
  - cbn. lia.
  - left. reflexivity.
  - reflexivity.
Defined.


(** ** More on the export driver *)

Section DriverMore.
Variable mp : MoviePy.

(** A turn of the loop on a point with an unset time raises the
    [TypeError] of the division, before any signal. *)
Lemma process_point_unset out_dir base_name total i point w p :
  objects w !! point = Some p ->
  start_time p = None \/ end_time p = None ->
  process_point mp out_dir base_name total i point w = (w, Raise TypeError_div).
Proof.
  intros Hp Hnone. unfold process_point, read_time. rewrite bind_eq, Hp. cbn.
  destruct (start_time p) as [s |]; [| reflexivity].
  rewrite bind_eq, Hp. cbn.
  destruct Hnone as [H | ->]; [discriminate | reflexivity].
Qed.

Lemma for_enumerate_unset out_dir base_name total split_points :
  forall k i w point p,
  split_points !! k = Some point ->
  objects w !! point = Some p ->
  start_time p = None \/ end_time p = None ->
  (forall j point',
      (j < k)%nat -> split_points !! j = Some point' ->
      exists s' e',
        point_times (objects w) point' = Some (s', e')
        /\ write_segment mp (i + j) s' e'
             (path_join out_dir (output_filename base_name (i + j))) = None) ->
  for_enumerate i split_points (process_point mp out_dir base_name total) w
  = ({| objects := objects w;
        events := events w
                  ++ loop_events (objects w) out_dir base_name total i
                       (take k split_points);
        files := files w ++ loop_files out_dir base_name i k |},
     Raise TypeError_div).
Proof.
  induction split_points as [| p0 r IH]; intros k i w point p Hk Hp Hnone Hbefore;
    [discriminate |].
  cbn [for_enumerate]. rewrite bind_eq.
  destruct k as [| k].
  - cbn in Hk. injection Hk as ->.
    rewrite (process_point_unset _ _ _ _ _ _ p Hp Hnone).
    cbn [take loop_events]. unfold loop_files. cbn [seq fmap list_fmap].
    rewrite !app_nil_r. destruct w; reflexivity.
  - destruct (Hbefore 0%nat p0 ltac:(lia) eq_refl) as (s0 & e0 & Ht0 & Hw0).
    rewrite Nat.add_0_r in Hw0.
    rewrite (process_point_ok _ _ _ _ _ _ _ s0 e0 Ht0 Hw0).
    rewrite (IH k (S i) _ point p).
    + cbn [objects events files take loop_events]. rewrite Ht0.
      unfold loop_files. cbn [seq fmap list_fmap].
      rewrite <- !app_assoc. reflexivity.
    + exact Hk.
    + exact Hp.
    + exact Hnone.
    + intros j point' Hj Hl. cbn [objects].
      destruct (Hbefore (S j) point' ltac:(lia) Hl) as (s' & e' & Ht' & Hw').
      replace (S i + j)%nat with (i + S j)%nat by lia. eauto.
Qed.

(** The events of a turn of the loop hold no terminal signal. *)
Lemma process_point_quiet out_dir base_name total i point w :
  exists evs,
    events (fst (process_point mp out_dir base_name total i point w)) = events w ++ evs
    /\ forallb quiet evs = true.
Proof.
  unfold process_point, read_time, emit, write_videofile, log, add_file, raise.
  rewrite bind_eq.
  destruct (start_time <$> objects w !! point) as [[s |] |];
    try (exists []; rewrite app_nil_r; split; reflexivity).
  rewrite bind_eq.
  destruct (end_time <$> objects w !! point) as [[e |] |];
    try (exists []; rewrite app_nil_r; split; reflexivity).
  cbv zeta. rewrite !bind_eq. cbn [objects events files].
  eexists.
  destruct (write_segment mp i s e _); cbn [fst events];
    rewrite <- !app_assoc; split; reflexivity.
Qed.

Lemma for_enumerate_quiet out_dir base_name total split_points : forall i w,
  exists evs,
    events (fst (for_enumerate i split_points
                   (process_point mp out_dir base_name total) w))
    = events w ++ evs
    /\ forallb quiet evs = true.
Proof.
  induction split_points as [| point r IH]; intros i w.
  - exists []. rewrite app_nil_r. split; reflexivity.
  - cbn [for_enumerate]. rewrite bind_eq.
    destruct (process_point_quiet out_dir base_name total i point w)
      as (evs1 & E1 & Q1).
    destruct (process_point mp out_dir base_name total i point w) as [w1 [[] | e]];
      cbn [fst] in E1 |- *.
    + destruct (IH (S i) w1) as (evs2 & E2 & Q2).
      exists (evs1 ++ evs2). rewrite E2, E1, <- app_assoc. split; [reflexivity |].
      rewrite forallb_app, Q1, Q2. reflexivity.
    + exists evs1. split; assumption.
Qed.

(** An export whose video cannot be opened. *)
Lemma split_video_open_failed self path out_dir split_points message w :
  configured self path out_dir -> split_points <> [] ->
  open_clip mp path = inl message ->
  split_video mp self split_points w
  = ({| objects := objects w;
        events := events w
                  ++ [Call (VideoFileClip path);
                      Emit (error_occurred ("Error splitting video: " ++ message))];
        files := files w |}, Ok ()).
Proof.
  intros (Hp & Ho & Hpne & Hone) Hne Hopen.
  unfold split_video. rewrite Hp, Ho, !truthy_Some by assumption.
  cbn [negb orb default].
  destruct split_points as [| p0 r]; [contradiction |].
  unfold try_except. cbv zeta.
  rewrite bind_eq. unfold open_video. rewrite bind_eq. unfold log at 1.
  unfold id. rewrite Hopen. unfold raise, emit, log. cbn [objects events files].
  rewrite <- app_assoc. reflexivity.
Qed.

Lemma truthy_true_inv o : truthy o = true -> exists s, o = Some s /\ s <> ""%string.
Proof.
  destruct o as [s |]; [| discriminate]. cbn. intros H. exists s. split; [reflexivity |].
  intros ->. discriminate.
Qed.

(** The ways an export can go. *)
Lemma split_video_cases self split_points w :
  (split_video mp self split_points w
   = ({| objects := objects w;
         events := events w
                   ++ [Emit (error_occurred "Video path or output directory not set")];
         files := files w |}, Ok ()))
  \/ (split_video mp self split_points w
      = ({| objects := objects w;
            events := events w ++ [Emit (error_occurred "No split points defined")];
            files := files w |}, Ok ()))
  \/ (exists path message,
        split_video mp self split_points w
        = ({| objects := objects w;
              events := events w
                        ++ [Call (VideoFileClip path);
                            Emit (error_occurred ("Error splitting video: " ++ message))];
              files := files w |}, Ok ()))
  \/ (exists path video evs fs s,
        open_clip mp path = inr video
        /\ split_video mp self split_points w
           = ({| objects := resolved (int_of mp (times_1000 mp (clip_duration video)))
                              split_points (objects w);
                 events := events w ++ Call (VideoFileClip path) :: evs ++ [Emit s];
                 files := fs |}, Ok ())
        /\ forallb quiet evs = true /\ terminal s = true).
Proof.
  destruct (truthy (video_path self)) eqn:Hv;
    [| left; apply split_video_unconfigured; auto].
  destruct (truthy (output_dir self)) eqn:Ho;
    [| left; apply split_video_unconfigured; auto].
  destruct split_points as [| p0 r] eqn:Epts;
    [right; left; apply split_video_no_points; assumption |].
  rewrite <- Epts. assert (split_points <> []) as Hne by (rewrite Epts; discriminate).
  clear Epts.
  apply truthy_true_inv in Hv as (path & Hv & Hpne).
  apply truthy_true_inv in Ho as (out_dir & Ho & Hone).
  assert (configured self path out_dir) as Hconf by (repeat split; assumption).
  right. right.
  destruct (open_clip mp path) as [message | video] eqn:Hopen.
  - left. exists path, message. apply split_video_open_failed with out_dir; assumption.
  - right.
    rewrite (split_video_configured mp self path out_dir split_points video w
               Hconf Hne Hopen).
    match goal with
    | |- context [for_enumerate 0%nat split_points ?body ?w1] =>
        destruct (for_enumerate_quiet out_dir (base_name_of path)
                    (length split_points) split_points 0%nat w1) as (evs & E & Q);
        pose proof (for_enumerate_objects mp out_dir (base_name_of path)
                      (length split_points) split_points 0%nat w1) as Hobj;
        destruct (for_enumerate 0%nat split_points body w1) as [w2 [[] | msg]]
    end.
    + cbn [fst objects events] in E, Hobj.
      exists path, video,
        (evs ++ [Call close;
                 Emit (progress_updated (length split_points) (length split_points))]),
        (files w2), splitting_completed.
      split; [exact Hopen |]. split; [| split; [| reflexivity]].
      * rewrite E, Hobj, <- !app_assoc. reflexivity.
      * rewrite forallb_app, Q. reflexivity.
    + cbn [fst objects events] in E, Hobj.
      exists path, video, evs, (files w2),
        (error_occurred ("Error splitting video: " ++ msg)).
      split; [exact Hopen |]. split; [| split; [exact Q | reflexivity]].
      rewrite E, Hobj, <- !app_assoc. reflexivity.
Qed.

Lemma resolved_all_set d split_points points :
  all_set points -> resolved d split_points points = points.
Proof.
  intros Hall. unfold resolved.
  destruct (last split_points) as [point |]; [| reflexivity].
  destruct (points !! point) as [p |] eqn:Hp; [| reflexivity]. cbn.
  unfold all_set in Hall. rewrite Forall_lookup in Hall.
  destruct (Hall point p Hp) as [_ [e ->]]. reflexivity.
Qed.

End DriverMore.

(** ** The names of the output files *)

Section OutputNames.
Import PyText PyTextFacts.

Lemma list_ascii_of_string_app a b :
  list_ascii_of_string (a ++ b)%string = list_ascii_of_string a ++ list_ascii_of_string b.
Proof. induction a as [| c a IH]; [reflexivity |]. cbn. rewrite IH. reflexivity. Qed.

Lemma string_of_list_ascii_inj l l' :
  string_of_list_ascii l = string_of_list_ascii l' -> l = l'.
Proof.
  intros H. rewrite <- (list_ascii_of_string_of_list_ascii l),
              <- (list_ascii_of_string_of_list_ascii l'), H. reflexivity.
Qed.

Lemma str_of_nat_inj a b : str_of_nat a = str_of_nat b -> a = b.
Proof.
  unfold str_of_nat, str. intros H. apply string_of_list_ascii_inj in H.
  destruct (Z.ltb_spec (Z.of_nat a) 0) as [? | _]; [lia |].
  destruct (Z.ltb_spec (Z.of_nat b) 0) as [? | _]; [lia |].
  destruct (digits_spec (Z.of_nat a) ltac:(lia)) as (_ & _ & Va).
  destruct (digits_spec (Z.of_nat b) ltac:(lia)) as (_ & _ & Vb).
  rewrite H in Va. lia.
Qed.

Lemma output_filename_chars base_name i :
  exists c r,
    (forall j, exists r',
        list_ascii_of_string (output_filename base_name j) = c :: r')
    /\ list_ascii_of_string (output_filename base_name i) = c :: r.
Proof.
  unfold output_filename. destruct base_name as [| c b].
  - exists "_"%char. eexists. split; [intros j; eexists |]; reflexivity.
  - exists c. eexists. split; [intros j; eexists |]; reflexivity.
Qed.

Lemma output_filename_inj base_name i j :
  output_filename base_name i = output_filename base_name j -> i = j.
Proof.
  unfold output_filename. intros H.
  apply (f_equal list_ascii_of_string) in H.
  rewrite !list_ascii_of_string_app in H.
  apply app_inv_head in H. apply app_inv_head in H. apply app_inv_tail in H.
  apply (f_equal string_of_list_ascii) in H.
  rewrite !string_of_list_ascii_of_string in H.
  apply str_of_nat_inj in H. lia.
Qed.

Lemma join_same_first a c r r' :
  PyPath.join a (c :: r) = PyPath.join a (c :: r') -> r = r'.
Proof.
  unfold PyPath.join. destruct (ascii_eqb c "/").
  - intros H. injection H as H. exact H.
  - destruct (last a) as [e |]; [destruct (ascii_eqb e "/") |]; intros H.
    + apply app_inv_head in H. injection H as H. exact H.
    + apply app_inv_head in H. injection H as H. exact H.
    + injection H as H. exact H.
Qed.

Lemma output_path_inj out_dir base_name i j :
  path_join out_dir (output_filename base_name i)
  = path_join out_dir (output_filename base_name j) ->
  i = j.
Proof.
  unfold path_join. intros H. apply string_of_list_ascii_inj in H.
  destruct (output_filename_chars base_name i) as (c & r & Hall & Hi).
  destruct (Hall j) as (r' & Hj). rewrite Hi, Hj in H.
  apply join_same_first in H. subst r'.
  apply output_filename_inj with base_name.
  rewrite <- (string_of_list_ascii_of_string (output_filename base_name i)),
    <- (string_of_list_ascii_of_string (output_filename base_name j)), Hi, Hj.
  reflexivity.
Qed.

End OutputNames.

(** X8: the output files of one export have different paths: no segment
    is written over another. *)
Theorem output_files_distinct (out_dir base_name : string) (i n : nat) :
  NoDup (loop_files out_dir base_name i n).
Proof.
  unfold loop_files. apply NoDup_fmap_2; [| apply NoDup_seq].
  intros a b H. apply output_path_inj in H. exact H.
Qed.

(** X9: [split_video] never lets an exception out and always ends by
    emitting one terminal signal, [splitting_completed] or [error_occurred];
    no other terminal signal comes before it. *)
Theorem split_video_ends_with_one_terminal_signal
        (mp : MoviePy) (self : VideoSplitter) (split_points : list nat) (w : world) :
  exists w' evs s,
    split_video mp self split_points w = (w', Ok ())
    /\ events w' = events w ++ evs ++ [Emit s]
    /\ forallb quiet evs = true
    /\ terminal s = true.
Proof.
  destruct (split_video_cases mp self split_points w)
    as [E | [E | [(path & message & E) | (path & video & evs & fs & s & _ & E & Q & T)]]];
    rewrite E.
  - eexists _, [], _. repeat split.
  - eexists _, [], _. repeat split.
  - eexists _, [Call (VideoFileClip path)], _. repeat split.
  - eexists _, (Call (VideoFileClip path) :: evs), s. repeat split; assumption.
Qed.

(** X10: when the video cannot be opened, a configured export of a
    non-empty selection emits [error_occurred] with the message of the
    exception and does nothing else: no point is announced, the encoder is
    not called, no file is written and no split point changes. *)
Theorem export_open_failure
        (mp : MoviePy) (self : VideoSplitter) (path out_dir : string)
        (split_points : list nat) (points : list SplitPoint) (message : string) :
  configured self path out_dir -> split_points <> [] ->
  open_clip mp path = inl message ->
  split_video mp self split_points (world_of points)
  = ({| objects := points;
        events := [Call (VideoFileClip path);
                   Emit (error_occurred ("Error splitting video: " ++ message))];
        files := [] |}, Ok ()).
Proof.
  intros Hconf Hne Hopen.
  rewrite (split_video_open_failed mp self path out_dir split_points message _
             Hconf Hne Hopen).
  reflexivity.
Qed.

Lemma export_open_failure_witness :
  split_video cannot_open
    {| video_path := Some "/videos/name.mp4"%string; output_dir := Some "/out"%string |}
    [0%nat] (world_of [mkSplitPoint (Some 0) (Some 30000) true])
  = ({| objects := [mkSplitPoint (Some 0) (Some 30000) true];
        events := [Call (VideoFileClip "/videos/name.mp4");
                   Emit (error_occurred "Error splitting video: file not found")];
        files := [] |}, Ok ()).
Proof.
  apply (export_open_failure cannot_open
           {| video_path := Some "/videos/name.mp4"%string;
              output_dir := Some "/out"%string |}
           "/videos/name.mp4" "/out" [0%nat]
           [mkSplitPoint (Some 0) (Some 30000) true] "file not found").
  - repeat split; discriminate.
  - discriminate.
  - reflexivity.
Defined.

(** X11: an export never changes a table that the sequencer operations
    have built: its points all have their end set, so the driver finds no
    end to resolve. *)
Theorem export_keeps_built_tables
        (mp : MoviePy) (self : VideoSplitter) (selection : list nat)
        (ops : list table_op) :
  objects (fst (split_video mp self selection (world_of (split_points (run_ops ops)))))
  = split_points (run_ops ops).
Proof.
  destruct (run_ops_invariants ops) as (_ & Hall & _).
  destruct (split_video_cases mp self selection
              (world_of (split_points (run_ops ops))))
    as [E | [E | [(path & message & E) | (path & video & evs & fs & s & _ & E & _)]]];
    rewrite E; cbn [fst objects world_of]; try reflexivity.
  apply resolved_all_set. exact Hall.
Qed.

(** X12: when a point of the selection has an unset start, or an unset end
    that the driver has not resolved (only the end of the last point is),
    the export stops at that point with the message of the [TypeError],
    before announcing the point and without calling the encoder for it; the
    points before it have been written. *)
Theorem export_unset_time_aborts
        (mp : MoviePy) (self : VideoSplitter) (path out_dir : string)
        (selection : list nat) (video : Clip (float mp))
        (points : list SplitPoint) (k point : nat) (p : SplitPoint) :
  configured self path out_dir ->
  open_clip mp path = inr video ->
  let n := length selection in
  let base_name := base_name_of path in
  let points' :=
    resolved (int_of mp (times_1000 mp (clip_duration video))) selection points in
  selection !! k = Some point ->
  points' !! point = Some p ->
  start_time p = None \/ end_time p = None ->
  (forall j point',
      (j < k)%nat -> selection !! j = Some point' ->
      exists s' e',
        point_times points' point' = Some (s', e')
        /\ write_segment mp j s' e' (path_join out_dir (output_filename base_name j))
           = None) ->
  let w' := fst (split_video mp self selection (world_of points)) in
  events w'
  = Call (VideoFileClip path)
    :: loop_events points' out_dir base_name n 0 (take k selection)
    ++ [Emit (error_occurred ("Error splitting video: " ++ TypeError_div))]
  /\ signals_of (events w')
     = flat_map (segment_signals base_name n) (seq 0 k)
       ++ [error_occurred ("Error splitting video: " ++ TypeError_div)]
  /\ files w' = loop_files out_dir base_name 0 k.
Proof.
  cbv zeta. intros Hconf Hopen Hk Hp Hnone Hbefore.
  set (n := length selection).
  set (base_name := base_name_of path) in *.
  set (points' := resolved _ selection points) in *.
  set (w' := fst (split_video mp self selection (world_of points))).
  assert (selection <> []) as Hne by (intros ->; discriminate).
  assert (k < n)%nat as Hkn by (apply lookup_lt_is_Some; eauto).
  assert (events w'
          = Call (VideoFileClip path)
            :: loop_events points' out_dir base_name n 0 (take k selection)
            ++ [Emit (error_occurred ("Error splitting video: " ++ TypeError_div))]
          /\ files w' = loop_files out_dir base_name 0 k) as [Hev Hfiles].
  { subst w'.
    rewrite (split_video_configured mp self path out_dir selection video _
               Hconf Hne Hopen).
    fold base_name n.
    match goal with
    | |- context [for_enumerate 0%nat _ _ ?w1] =>
        rewrite (for_enumerate_unset mp out_dir base_name n selection
                   k 0%nat w1 point p Hk Hp Hnone Hbefore)
    end.
    cbn [fst objects events files world_of app].
    split; reflexivity. }
  split; [exact Hev |]. split; [| exact Hfiles].
  rewrite Hev. change (signals_of (Call (VideoFileClip path) :: ?l)) with (signals_of l).
  rewrite signals_of_app, signals_of_loop_events.
  - rewrite length_take_le by (fold n; lia). reflexivity.
  - apply Forall_lookup. intros j point' Hj.
    apply lookup_take_Some in Hj as [Hj Hlt].
    destruct (Hbefore j point' Hlt Hj) as (s' & e' & Ht' & _).
    rewrite Ht'. eauto.
Qed.

Lemma export_unset_time_aborts_witness :
  let self := {| video_path := Some "/videos/name.mp4"%string;
                 output_dir := Some "/out"%string |} in
  let points := [mkSplitPoint (Some 0) None true;
                 mkSplitPoint (Some 30000) (Some 60000) true] in
  signals_of (events (fst (split_video working_encoder self [0%nat; 1%nat]
                             (world_of points))))
  = [error_occurred
       "Error splitting video: unsupported operand type(s) for /: 'NoneType' and 'int'"].
Proof.
  cbv zeta.
  destruct (export_unset_time_aborts working_encoder
              {| video_path := Some "/videos/name.mp4"%string;
                 output_dir := Some "/out"%string |}
              "/videos/name.mp4" "/out" [0%nat; 1%nat]
              (mkClip (90 : float working_encoder) 640 480 (30 : float working_encoder))
              [mkSplitPoint (Some 0) None true;
               mkSplitPoint (Some 30000) (Some 60000) true]
              0%nat 0%nat (mkSplitPoint (Some 0) None true))
    as (_ & Hsig & _).
  - repeat split; discriminate.
  - reflexivity.
  - reflexivity.
  - reflexivity.
  - right. reflexivity.
  - intros j point' Hj. lia.
  - exact Hsig.
Defined.

(** X13: [get_video_info] without a path returns [None] and does nothing;
    when the video cannot be opened it emits [error_occurred] with the
    message and returns [None]; otherwise it returns the duration times
    1000, the size, the frame rate and the base name of the path, and has
    closed the video it opened. *)
Theorem get_video_info_outcomes
        (mp : MoviePy) (self : VideoSplitter) (w : world) :
  (truthy (video_path self) = false -> get_video_info mp self w = (w, Ok None))
  /\ (forall path message,
        video_path self = Some path -> path <> ""%string ->
        open_clip mp path = inl message ->
        get_video_info mp self w
        = ({| objects := objects w;
              events := events w
                        ++ [Call (VideoFileClip path);
                            Emit (error_occurred ("Error getting video info: " ++ message))];
              files := files w |}, Ok None))
  /\ (forall path video,
        video_path self = Some path -> path <> ""%string ->
        open_clip mp path = inr video ->
        get_video_info mp self w
        = ({| objects := objects w;
              events := events w ++ [Call (VideoFileClip path); Call close];
              files := files w |},
           Ok (Some (mkInfo mp (times_1000 mp (clip_duration video))
                       (clip_w video) (clip_h video) (clip_fps video)
                       (string_of_list_ascii
                          (PyPath.basename (list_ascii_of_string path))))))).
Proof.
  split; [| split].
  - intros H. unfold get_video_info. rewrite H. reflexivity.
  - intros path message Hp Hne Hopen. unfold get_video_info.
    rewrite Hp, truthy_Some by exact Hne. cbn [negb default].
    unfold id. rewrite bind_eq. unfold open_video. rewrite bind_eq.
    unfold log at 1. rewrite Hopen. unfold raise.
    rewrite bind_eq. unfold emit, log, ret. cbn [objects events files].
    rewrite <- app_assoc. reflexivity.
  - intros path video Hp Hne Hopen. unfold get_video_info.
    rewrite Hp, truthy_Some by exact Hne. cbn [negb default].
    unfold id. rewrite bind_eq. unfold open_video. rewrite bind_eq.
    unfold log at 1. rewrite Hopen. unfold ret at 1. rewrite bind_eq.
    unfold close_video, log, ret. cbn [objects events files].
    rewrite <- app_assoc. reflexivity.
Qed.

Lemma get_video_info_outcomes_witness :
  get_video_info cannot_open
    {| video_path := Some "/videos/name.mp4"%string; output_dir := None |}
    (world_of [])
  = ({| objects := [];
        events := [Call (VideoFileClip "/videos/name.mp4");
                   Emit (error_occurred "Error getting video info: file not found")];
        files := [] |}, Ok None)
  /\ snd (get_video_info working_encoder
            {| video_path := Some "/videos/name.mp4"%string; output_dir := None |}
            (world_of []))
     = Ok (Some (mkInfo working_encoder 90000 640 480 30 "name.mp4"))
  /\ get_video_info working_encoder {| video_path := None; output_dir := None |}
       (world_of [])
     = (world_of [], Ok None).
Proof.
  split; [| split].
  - apply (proj1 (proj2 (get_video_info_outcomes cannot_open
                           {| video_path := Some "/videos/name.mp4"%string;
                              output_dir := None |} (world_of [])))
             "/videos/name.mp4"%string "file not found"%string);
      [reflexivity | discriminate | reflexivity].
  - rewrite (proj2 (proj2 (get_video_info_outcomes working_encoder
                             {| video_path := Some "/videos/name.mp4"%string;
                                output_dir := None |} (world_of [])))
               "/videos/name.mp4"%string
               (mkClip (90 : float working_encoder) 640 480
                  (30 : float working_encoder)));
      [reflexivity | reflexivity | discriminate | reflexivity].
  - apply (proj1 (get_video_info_outcomes working_encoder
                    {| video_path := None; output_dir := None |} (world_of []))).
    reflexivity.
Defined.

(** ** The video player *)

Section PlayerFacts.
Import PyText PyTextFacts.

Lemma player_format_time_eq ms : player_format_time ms = format_time ms.
Proof. reflexivity. Qed.

(** Below a hundred hours the time is printed with two digits of hours:
    the text fills the input mask. *)
Lemma format_time_fits_mask m :
  0 <= m < 360000000 -> fits_mask (format_time (Some m)) = true.
Proof.
  intros Hm. unfold format_time. cbv zeta.
  assert (0 <= m / 1000 / 60 / 60 < 100) as H3.
  { split; [repeat apply Z.div_pos; lia |].
    repeat (apply Z.div_lt_upper_bound; [lia |]). lia. }
  assert (0 <= (m / 1000 / 60) mod 60 < 60) as H4 by (apply Z.mod_pos_bound; lia).
  assert (0 <= (m / 1000) mod 60 < 60) as H5 by (apply Z.mod_pos_bound; lia).
  assert (0 <= m mod 1000 < 1000) as H6 by (apply Z.mod_pos_bound; lia).
  destruct (format_0d_spec 2 _ (proj1 H3)) as (Ah & _ & _).
  destruct (format_0d_spec 2 _ (proj1 H4)) as (Am & _ & _).
  destruct (format_0d_spec 2 _ (proj1 H5)) as (As & _ & _).
  destruct (format_0d_spec 3 _ (proj1 H6)) as (Ams & _ & _).
  destruct (two_chars _ (format_0d_length 2 (m / 1000 / 60 / 60) ltac:(lia)
                           ltac:(change (10 ^ Z.of_nat 2) with 100; lia)))
    as (h1 & h2 & Eh).
  destruct (two_chars _ (format_0d_length 2 ((m / 1000 / 60) mod 60) ltac:(lia)
                           ltac:(change (10 ^ Z.of_nat 2) with 100; lia)))
    as (m1 & m2 & Em).
  destruct (two_chars _ (format_0d_length 2 ((m / 1000) mod 60) ltac:(lia)
                           ltac:(change (10 ^ Z.of_nat 2) with 100; lia)))
    as (s1 & s2 & Es).
  destruct (three_chars _ (format_0d_length 3 (m mod 1000) ltac:(lia)
                             ltac:(change (10 ^ Z.of_nat 3) with 1000; lia)))
    as (k1 & k2 & k3 & Ems).
  rewrite Eh, Em, Es, Ems in *.
  unfold fits_mask. rewrite list_ascii_of_string_of_list_ascii. cbn [app].
  inversion Ah as [| ? ? Hh1 Ah']; inversion Ah' as [| ? ? Hh2 _]; subst.
  inversion Am as [| ? ? Hm1 Am']; inversion Am' as [| ? ? Hm2 _]; subst.
  inversion As as [| ? ? Hs1 As']; inversion As' as [| ? ? Hs2 _]; subst.
  inversion Ams as [| ? ? Hk1 Ams']; inversion Ams' as [| ? ? Hk2 Ams''];
    inversion Ams'' as [| ? ? Hk3 _]; subst.
  rewrite Hh1, Hh2, Hm1, Hm2, Hs1, Hs2, Hk1, Hk2, Hk3. reflexivity.
Qed.

Lemma time_edit_changed_parse masked self :
  time_edit_changed masked self
  = match parse_time (time_edit self) with
    | Some total_ms => (self, Some total_ms)
    | None =>
        ({| position := position self;
            slider_value := slider_value self;
            time_label := time_label self;
            time_edit := masked (player_format_time (Some (position self))) |},
         None)
    end.
Proof. reflexivity. Qed.

End PlayerFacts.

(** X14: when the player shows a position below a hundred hours, pressing
    Return in the time field without changing its text seeks to that very
    position and leaves what the player shows as it is.  The input mask of
    the field is taken to keep a text that fills it. *)
Theorem time_edit_seeks_to_shown_position
        (masked : string -> string) (self : VideoPlayer) (pos : Z) :
  (forall text, fits_mask text = true -> masked text = text) ->
  0 <= pos < 360000000 ->
  time_edit_changed masked (position_changed masked self pos)
  = (position_changed masked self pos, Some pos).
Proof.
  intros Hmask Hpos. rewrite time_edit_changed_parse.
  unfold position_changed at 1. cbv zeta. cbn [time_edit].
  rewrite player_format_time_eq, Hmask by (apply format_time_fits_mask; exact Hpos).
  rewrite parse_time_format_time. reflexivity.
Qed.

Lemma time_edit_seeks_to_shown_position_witness :
  time_edit_changed (fun text => text)
    (position_changed (fun text => text) (mkPlayer 0 0 "00:00:00.000" "00:00:00.000")
       3723004)
  = (mkPlayer 3723004 3723004 "01:02:03.004" "01:02:03.004", Some 3723004).
Proof.
  apply (time_edit_seeks_to_shown_position (fun text => text)
           (mkPlayer 0 0 "00:00:00.000" "00:00:00.000") 3723004).
  - reflexivity.
  - lia.
Defined.

(** ** Starting an export from the window *)

Section WindowFacts.
Variable percent : nat -> nat -> Z.

Lemma signals_of_quiet evs :
  forallb quiet evs = true -> Forall (fun s => terminal s = false) (signals_of evs).
Proof.
  induction evs as [| e evs IH]; intros H; [constructor |].
  cbn [forallb] in H. apply andb_true_iff in H as [He H].
  destruct e as [s | c]; cbn.
  - constructor; [| apply IH; exact H].
    cbn in He. destruct (terminal s); [discriminate | reflexivity].
  - apply IH. exact H.
Qed.

(** The signals of an export: signals that are not terminal, then one
    terminal signal. *)
Lemma split_video_signals mp self selection points :
  exists sigs s,
    signals_of (events (fst (split_video mp self selection (world_of points))))
    = sigs ++ [s]
    /\ Forall (fun s => terminal s = false) sigs
    /\ terminal s = true.
Proof.
  destruct (split_video_cases mp self selection (world_of points))
    as [E | [E | [(path & message & E) | (path & video & evs & fs & s & _ & E & Q & T)]]];
    rewrite E; cbn [fst events world_of app].
  - eexists [], _. repeat split. constructor.
  - eexists [], _. repeat split. constructor.
  - eexists [], _. repeat split. constructor.
  - exists (signals_of evs), s.
    change (signals_of (Call (VideoFileClip path) :: ?l)) with (signals_of l).
    rewrite signals_of_app. repeat split; [apply signals_of_quiet; exact Q | exact T].
Qed.

(** The slots of the signals that are not terminal change the status
    line and the progress value only. *)
Lemma foldl_slot_quiet sigs : forall self,
  Forall (fun s => terminal s = false) sigs ->
  let self' := foldl (slot percent) self sigs in
  dialogs self' = dialogs self
  /\ start_splitting_btn self' = start_splitting_btn self
  /\ open_btn self' = open_btn self
  /\ select_output_btn self' = select_output_btn self
  /\ progress_bar_visible self' = progress_bar_visible self
  /\ split_points_table self' = split_points_table self.
Proof.
  induction sigs as [| s sigs IH]; intros self Hall; [cbn; repeat split |].
  inversion Hall as [| ? ? Hs Hrest]; subst. cbn [foldl].
  destruct (IH (slot percent self s) Hrest) as (H1 & H2 & H3 & H4 & H5 & H6).
  cbv zeta. rewrite H1, H2, H3, H4, H5, H6.
  destruct s; try discriminate; repeat split.
Qed.

Lemma slot_terminal self s :
  terminal s = true ->
  let self' := slot percent self s in
  start_splitting_btn self' = true /\ open_btn self' = true
  /\ select_output_btn self' = true /\ progress_bar_visible self' = false
  /\ split_points_table self' = split_points_table self
  /\ exists title text,
       dialogs self' = dialogs self ++ [information title text]
       \/ dialogs self' = dialogs self ++ [critical title text].
Proof.
  intros Hs. destruct s; try discriminate; cbn; repeat split; eauto.
Qed.

End WindowFacts.

(** X15: [start_splitting] without a source path or an output directory
    in the window returns at once: the window stays as it is, silently, and
    the driver is not called.  With both set and no point selected it shows
    one warning and does not call the driver either. *)
Theorem start_splitting_refuses
        (percent : nat -> nat -> Z) (mp : MoviePy) (self : MainWindow) :
  (truthy (current_video_path self) = false
   \/ truthy (window_output_dir self) = false ->
   start_splitting percent mp self
   = (self, world_of (split_points (split_points_table self))))
  /\ (truthy (current_video_path self) = true ->
      truthy (window_output_dir self) = true ->
      get_selected_points (split_points_table self) = [] ->
      let (self', w') := start_splitting percent mp self in
      w' = world_of (split_points (split_points_table self))
      /\ dialogs self'
         = dialogs self
           ++ [warning "No Split Points Selected"
                 "Please select at least one split point to proceed."]
      /\ start_splitting_btn self' = start_splitting_btn self
      /\ open_btn self' = open_btn self
      /\ select_output_btn self' = select_output_btn self
      /\ progress_bar_visible self' = progress_bar_visible self
      /\ split_points_table self' = split_points_table self).
Proof.
  split.
  - intros H. unfold start_splitting. cbv zeta.
    destruct (truthy (current_video_path self)), (truthy (window_output_dir self));
      try reflexivity.
    destruct H; discriminate.
  - intros H1 H2 Hsel. unfold start_splitting. cbv zeta.
    rewrite H1, H2, Hsel. cbn. repeat split.
Qed.

Lemma start_splitting_refuses_witness :
  let window :=
    mkWindow (Some "/videos/name.mp4"%string) None
      (mkVideoSplitter (Some "/videos/name.mp4"%string) None)
      (run_ops [AddPoint 30000]) true true true false 0 "Ready" [] in
  start_splitting (fun _ _ => 0) working_encoder window
  = (window, world_of (split_points (run_ops [AddPoint 30000]))).
Proof.
  cbv zeta.
  apply (proj1 (start_splitting_refuses (fun _ _ => 0) working_encoder
                  (mkWindow (Some "/videos/name.mp4"%string) None
                     (mkVideoSplitter (Some "/videos/name.mp4"%string) None)
                     (run_ops [AddPoint 30000]) true true true false 0 "Ready" []))).
  right. reflexivity.
Defined.

(** X16: an export that [start_splitting] has started never leaves the
    window locked: whatever the driver and the encoder do, when
    [start_splitting] returns the three buttons are enabled again, the
    progress bar is hidden, and exactly one message box has been shown, the
    one of the success or the one of the error. *)
Theorem start_splitting_unlocks
        (percent : nat -> nat -> Z) (mp : MoviePy) (self : MainWindow) :
  truthy (current_video_path self) = true ->
  truthy (window_output_dir self) = true ->
  get_selected_points (split_points_table self) <> [] ->
  let self' := fst (start_splitting percent mp self) in
  start_splitting_btn self' = true /\ open_btn self' = true
  /\ select_output_btn self' = true /\ progress_bar_visible self' = false
  /\ exists title text,
       dialogs self' = dialogs self ++ [information title text]
       \/ dialogs self' = dialogs self ++ [critical title text].
Proof.
  intros H1 H2 Hsel. unfold start_splitting. cbv zeta. rewrite H1, H2. cbn [negb orb].
  destruct (get_selected_points (split_points_table self)) as [| p0 r] eqn:Esel;
    [contradiction |].
  rewrite <- Esel. cbn [fst].
  destruct (split_video_signals mp (video_splitter self)
              (get_selected_points (split_points_table self))
              (split_points (split_points_table self)))
    as (sigs & s & Hsig & Q & T).
  rewrite Hsig, foldl_app. cbn [foldl].
  match goal with
  | |- context [foldl (slot percent) ?prepared sigs] =>
      destruct (foldl_slot_quiet percent sigs prepared Q)
        as (D & B1 & B2 & B3 & B4 & _);
      destruct (slot_terminal percent (foldl (slot percent) prepared sigs) s T)
        as (T1 & T2 & T3 & T4 & _ & title & text & Hd)
  end.
  split; [exact T1 |]. split; [exact T2 |]. split; [exact T3 |]. split; [exact T4 |].
  exists title, text. rewrite D in Hd. exact Hd.
Qed.

Lemma start_splitting_unlocks_witness :
  let window :=
    mkWindow (Some "/videos/name.mp4"%string) (Some "/out"%string)
      (mkVideoSplitter (Some "/videos/name.mp4"%string) (Some "/out"%string))
      (run_ops [AddPoint 30000]) true true true false 0 "Ready" [] in
  let window' := fst (start_splitting (fun _ _ => 0) failing_encoder window) in
  start_splitting_btn window' = true /\ open_btn window' = true
  /\ select_output_btn window' = true /\ progress_bar_visible window' = false
  /\ dialogs window'
     = [critical "Error" "An error occurred: Error splitting video: encoder failed"].
Proof.
  cbv zeta.
  destruct (start_splitting_unlocks (fun _ _ => 0) failing_encoder
              (mkWindow (Some "/videos/name.mp4"%string) (Some "/out"%string)
                 (mkVideoSplitter (Some "/videos/name.mp4"%string) (Some "/out"%string))
                 (run_ops [AddPoint 30000]) true true true false 0 "Ready" []))
    as (T1 & T2 & T3 & T4 & _).
  - reflexivity.
  - reflexivity.
  - discriminate.
  - split; [exact T1 |]. split; [exact T2 |]. split; [exact T3 |].
    split; [exact T4 | reflexivity].
Defined.


(** ** Tables built by adding points *)

Section AddOnly.

Lemma apply_op_length self op :
  length (split_points (apply_op self op))
  = (length (split_points self)
     + match op with AddPoint _ => 1 | _ => 0 end)%nat.
Proof.
  destruct op as [current_time | row column text | row checked]; cbn [apply_op].
  - rewrite add_split_point_points, length_app. reflexivity.
  - destruct (edit_cell_points self row column text)
      as [-> | (v & _ & _ & [[_ ->] | [_ ->]])]; [lia | |].
    + destruct (0 <? row)%nat; rewrite ?length_alter; lia.
    + destruct (row <? _)%nat; rewrite ?length_alter; lia.
  - unfold toggle_selection. destruct (_ <? _)%nat; [| lia].
    cbn [split_points]. rewrite length_alter. lia.
Qed.

Lemma foldl_apply_op_length ops : forall self,
  length (split_points (foldl apply_op self ops))
  = (length (split_points self) + count_adds ops)%nat.
Proof.
  induction ops as [| op ops IH]; intros self; [cbn; lia |].
  cbn [foldl]. rewrite IH, apply_op_length.
  destruct op; cbn [count_adds]; lia.
Qed.

Lemma foldl_add_points times : forall self,
  split_points (foldl apply_op self (AddPoint <$> times))
  = split_points self
    ++ points_from (match last (split_points self) with
                    | None => Some 0
                    | Some p => end_time p
                    end) times.
Proof.
  induction times as [| t r IH]; intros self; cbn [fmap list_fmap foldl points_from].
  - rewrite app_nil_r. reflexivity.
  - rewrite IH. cbn [apply_op]. rewrite add_split_point_points, last_snoc.
    rewrite <- app_assoc. reflexivity.
Qed.

Lemma points_from_durations times : forall start,
  StronglySorted Z.le (start :: times) ->
  Forall (fun p => 0 <= duration p) (points_from (Some start) times).
Proof.
  induction times as [| t r IH]; intros start Hs; [constructor |].
  inversion Hs as [| ? ? Hrest Hall]; subst.
  cbn [points_from]. constructor.
  - unfold duration. cbn. inversion Hall; subst. lia.
  - apply IH. exact Hrest.
Qed.

End AddOnly.

(** X17: the table has one row for each [add_split_point] call: edits and
    selection toggles neither add nor remove a row, and no operation of the
    table removes one. *)
Theorem table_rows_count_adds (ops : list table_op) :
  length (split_points (run_ops ops)) = count_adds ops
  /\ length (rows (run_ops ops)) = count_adds ops.
Proof.
  assert (length (split_points (run_ops ops)) = count_adds ops) as H.
  { unfold run_ops. rewrite foldl_apply_op_length. reflexivity. }
  split; [exact H |].
  destruct (run_ops_invariants ops) as (_ & _ & Hd).
  rewrite Hd, length_fmap. exact H.
Qed.

(** X18: [add_split_point] called with the times [t1], ..., [tk] on the
    empty table gives exactly the points from 0 to [t1], from [t1] to [t2],
    ..., from [t(k-1)] to [tk], all of them selected. *)
Theorem add_points_from_empty (times : list Z) :
  split_points (run_ops (AddPoint <$> times)) = points_from (Some 0) times
  /\ get_selected_points (run_ops (AddPoint <$> times)) = seq 0 (length times).
Proof.
  assert (split_points (run_ops (AddPoint <$> times)) = points_from (Some 0) times)
    as H by (unfold run_ops; rewrite foldl_add_points; reflexivity).
  split; [exact H |].
  unfold get_selected_points. rewrite H. clear H.
  generalize 0%nat (Some 0). induction times as [| t r IH]; intros i start;
    [reflexivity |].
  cbn [points_from selected_from selected length seq]. rewrite IH. reflexivity.
Qed.

(** X19: when the times passed to [add_split_point] never go back (and
    the first is not negative), no row of the table has a negative
    duration.  The table itself does not check the order. *)
Theorem add_points_in_order_durations (times : list Z) :
  StronglySorted Z.le (0 :: times) ->
  Forall (fun p => 0 <= duration p) (split_points (run_ops (AddPoint <$> times))).
Proof.
  intros Hs. unfold run_ops. rewrite foldl_add_points. cbn [split_points app last].
  apply points_from_durations. exact Hs.
Qed.

Lemma add_points_in_order_durations_witness :
  Forall (fun p => 0 <= duration p)
    (split_points (run_ops (AddPoint <$> [30000; 60000; 60000]))).
Proof.
  apply (add_points_in_order_durations [30000; 60000; 60000]).
  repeat constructor; lia.
Defined.

(** Without the order a duration is negative. *)
Example add_point_backwards :
  duration <$> split_points (run_ops [AddPoint 60000; AddPoint 30000])
  = [60000; -30000].
Proof. reflexivity. Qed.

(** X20: after any sequence of sequencer operations the table shows the
    split points it holds: each row displays the formatted start, end and
    duration of its point. *)
Theorem table_display_in_sync (ops : list table_op) (row : nat) (p : SplitPoint) :
  split_points (run_ops ops) !! row = Some p ->
  item (run_ops ops) row 1 = Some (format_time (start_time p))
  /\ item (run_ops ops) row 2 = Some (format_time (end_time p))
  /\ item (run_ops ops) row 3 = Some (format_time (Some (duration p))).
Proof.
  intros Hp. destruct (run_ops_invariants ops) as (_ & _ & Hd).
  unfold item. rewrite Hd, list_lookup_fmap, Hp. repeat split.
Qed.

Lemma table_display_in_sync_witness :
  item (run_ops [AddPoint 30000; AddPoint 60000; EditCell 0 2 "00:00:45.000"]) 1 1
  = Some (format_time (Some 45000))
  /\ item (run_ops [AddPoint 30000; AddPoint 60000; EditCell 0 2 "00:00:45.000"]) 1 2
     = Some (format_time (Some 60000))
  /\ item (run_ops [AddPoint 30000; AddPoint 60000; EditCell 0 2 "00:00:45.000"]) 1 3
     = Some (format_time (Some 15000)).
Proof.
  apply (table_display_in_sync
           [AddPoint 30000; AddPoint 60000; EditCell 0 2 "00:00:45.000"] 1%nat
           (mkSplitPoint (Some 45000) (Some 60000) true)).
  reflexivity.
Defined.
